(** * check_fps: per-camera FPS supervisor, status registry and reporter

    Shallow embedding of [check_fps.cpp].  The C++ [int] is a [Z] whose
    wrap-around and faulting division are written out, the two global
    [std::map<std::string,int>] are key-ordered association lists, and the
    GStreamer pipeline is an external collaborator whose state-change results
    are inputs of the operations that call it.  Console output and pipeline
    state changes are recorded in a trace. *)

From Stdlib Require Import ZArith List String Ascii Bool Lia.
From Stdlib Require Import Sorted DecimalString OrderedTypeEx.
From Stdlib Require DecimalPos DecimalZ.
Import ListNotations.
Open Scope Z_scope.

(** ** The C++ [int] *)

Module Int.

Definition INT_MIN : Z := -2147483648.
Definition INT_MAX : Z := 2147483647.

Definition in_range (z : Z) : Prop := INT_MIN <= z <= INT_MAX.

(** Two's complement wrap-around of a 32-bit signed value. *)
Definition wrap (z : Z) : Z := (z + 2147483648) mod 4294967296 - 2147483648.

Definition add (a b : Z) : Z := wrap (a + b).

(** [a / b] on [int]: truncation towards zero; a zero divisor and
    [INT_MIN / -1] have no result. *)
Definition div (a b : Z) : option Z :=
  if b =? 0 then None
  else if (a =? INT_MIN) && (b =? -1) then None
  else Some (Z.quot a b).

End Int.

(** ** [std::map<std::string, V>]

    The map keeps its entries in ascending key order ([std::less] on
    [std::string] is the lexicographic order on unsigned bytes, which is
    [String.compare]); iteration visits the list from its head. *)

Module StdMap.

Definition t (V : Type) : Type := list (string * V).

Definition empty {V} : t V := [].

Fixpoint find {V} (k : string) (m : t V) : option V :=
  match m with
  | [] => None
  | (k', v) :: rest =>
      match String.compare k k' with
      | Eq => Some v
      | Lt => None
      | Gt => find k rest
      end
  end.

(** [m[k] = v]: replaces the value of an existing key, inserts otherwise. *)
Fixpoint set {V} (k : string) (v : V) (m : t V) : t V :=
  match m with
  | [] => [(k, v)]
  | (k', v') :: rest =>
      match String.compare k k' with
      | Lt => (k, v) :: m
      | Eq => (k, v) :: rest
      | Gt => (k', v') :: set k v rest
      end
  end.

(** The value [m[k]] reads on an [int] map: a missing key is
    value-initialised to 0. *)
Definition get (k : string) (m : t Z) : Z :=
  match find k m with
  | Some v => v
  | None => 0
  end.

Definition size {V} (m : t V) : nat := List.length m.

Definition keys {V} (m : t V) : list string := List.map fst m.

(** Number of entries stored under [k]. *)
Definition count_key {V} (k : string) (m : t V) : nat :=
  List.length (List.filter (fun e => String.eqb k (fst e)) m).

Definition slt (a b : string) : Prop := String.compare a b = Lt.

(** The ordering invariant of the container: strictly ascending keys. *)
Definition ordered {V} (m : t V) : Prop := StronglySorted slt (keys m).

End StdMap.

(** ** Trace of observable effects *)

Inductive GstState : Type :=
| GST_STATE_NULL
| GST_STATE_PLAYING.

(** The threads [main] creates: one per camera running [Camera::run], and
    [fps_thread] running [print_fps]. *)
Inductive thread : Type :=
| RunThread (camera_name : string)
| FpsThread.

Inductive event : Type :=
| Cout (line : string)
| Cerr (line : string)
| SetState (pipeline_uri : string) (target : GstState) (ok : bool)
| Spawn (t : thread)
| Join (t : thread).

Definition is_set_state (e : event) : bool :=
  match e with
  | SetState _ _ _ => true
  | _ => false
  end.

(** The pipeline state changes of a trace, in order. *)
Definition set_states (tr : list event) : list event :=
  List.filter is_set_state tr.

(** ** Program state *)

(** The globals [fps_map] and [downtime_map] and the trace. *)
Record World : Type := mkWorld {
  fps_map : StdMap.t Z;
  downtime_map : StdMap.t Z;
  trace : list event
}.

Definition emit (e : event) (w : World) : World :=
  mkWorld (fps_map w) (downtime_map w) (trace w ++ [e]).

Definition set_fps (k : string) (v : Z) (w : World) : World :=
  mkWorld (StdMap.set k v (fps_map w)) (downtime_map w) (trace w).

Definition set_downtime (k : string) (v : Z) (w : World) : World :=
  mkWorld (fps_map w) (StdMap.set k v (downtime_map w)) (trace w).

Definition downtime (k : string) (w : World) : Z :=
  StdMap.get k (downtime_map w).

(** The data members of [Camera] that the supervisor reads; [elements_ok]
    records whether the constructor obtained all its GStreamer elements. *)
Record Camera : Type := mkCamera {
  name : string;
  uri : string;
  elements_ok : bool;
  frame_count : Z;
  running : bool
}.

Definition with_frame_count (n : Z) (c : Camera) : Camera :=
  mkCamera (name c) (uri c) (elements_ok c) n (running c).

(** [Camera::set_running] *)
Definition set_running (state : bool) (c : Camera) : Camera :=
  mkCamera (name c) (uri c) (elements_ok c) (frame_count c) state.

(** [Camera::Camera]; [made] is whether every [gst_element_factory_make]
    and [gst_pipeline_new] returned an element. *)
Definition Camera_new (nm u : string) (made : bool) (w : World)
  : Camera * World :=
  let w := emit (Cout ("Initializing camera with URI: " ++ u)) w in
  let w := set_downtime nm (-1) w in
  let c := mkCamera nm u made 0 true in
  if made
  then (c, emit (Cout "Camera initialized successfully.") w)
  else (c, emit (Cerr "Failed to create GStreamer elements!") w).

(** [Camera::start]; [ok] is whether [gst_element_set_state] did not return
    [GST_STATE_CHANGE_FAILURE]. *)
Definition start (ok : bool) (c : Camera) (w : World) : World :=
  let w := emit (Cout ("Starting camera: " ++ uri c)) w in
  let w := emit (SetState (uri c) GST_STATE_PLAYING ok) w in
  if ok
  then emit (Cout ("Camera started successfully: " ++ uri c)) w
  else emit (Cerr ("Failed to start pipeline for camera: " ++ uri c)) w.

(** [Camera::stop] *)
Definition stop (ok : bool) (c : Camera) (w : World) : World :=
  let w := emit (Cout ("Stopping camera: " ++ uri c)) w in
  let w := emit (SetState (uri c) GST_STATE_NULL ok) w in
  if ok
  then emit (Cout ("Camera stopped successfully: " ++ uri c)) w
  else emit (Cerr ("Failed to stop pipeline for camera: " ++ uri c)) w.

(** [Camera::on_new_sample]; [pulled] is whether [gst_app_sink_pull_sample]
    returned a sample. *)
Definition on_new_sample (pulled : bool) (c : Camera) (w : World)
  : Camera * World :=
  if pulled
  then (with_frame_count (Int.add (frame_count c) 1) c, w)
  else (c, emit (Cerr ("Failed to pull sample for camera: " ++ uri c)) w).

(** The stall policy inside [Camera::run], lines 88-98. *)
Definition stall_policy (fps : Z) (stop_ok start_ok : bool)
  (c : Camera) (w : World) : World :=
  if fps =? 0 then
    let w := set_downtime (name c) (Int.add (downtime (name c) w) 1) w in
    if downtime (name c) w >=? 5 then
      let w := emit (Cout ("Reconnecting camera: " ++ name c)) w in
      let w := stop stop_ok c w in
      let w := start start_ok c w in
      set_downtime (name c) 0 w
    else w
  else set_downtime (name c) 0 w.

(** One iteration of the loop of [Camera::run], after the sleep: the part
    run under the two locks.  [None] is the fault of the division. *)
Definition run_iteration (interval : Z) (stop_ok start_ok : bool)
  (c : Camera) (w : World) : option (Camera * World) :=
  match Int.div (frame_count c) interval with
  | None => None
  | Some fps =>
      let c := with_frame_count 0 c in
      let w := set_fps (name c) fps w in
      Some (c, stall_policy fps stop_ok start_ok c w)
  end.

(** ** The supervisor loop, [Camera::run]

    What happens around one pass of the loop body: the new-sample callbacks
    that arrive during the sleep (each with the result of its pull), whether
    [main] calls [set_running(false)] during the sleep, and the results of
    the two state changes should the pass reconnect. *)
Record window : Type := mkWindow {
  samples : list bool;
  stop_request : bool;
  stop_ok : bool;
  start_ok : bool
}.

Inductive loop_status : Type :=
| Exited
| Looping.

Fixpoint deliver (pulls : list bool) (c : Camera) (w : World)
  : Camera * World :=
  match pulls with
  | [] => (c, w)
  | pulled :: rest =>
      let (c, w) := on_new_sample pulled c w in
      deliver rest c w
  end.

(** Number of frames a window delivers: the callbacks whose pull succeeded. *)
Definition frames_delivered (pulls : list bool) : Z :=
  Z.of_nat (List.length (List.filter (fun b => b) pulls)).

(** [Camera::run] over the windows given; [Looping] when the windows run out
    with the loop still live, [None] when an iteration faults. *)
Fixpoint run (interval : Z) (ws : list window) (c : Camera) (w : World)
  {struct ws} : option (loop_status * Camera * World) :=
  if running c then
    match ws with
    | [] => Some (Looping, c, w)
    | win :: rest =>
        let (c, w) := deliver (samples win) c w in
        let c := if stop_request win then set_running false c else c in
        match run_iteration interval (stop_ok win) (start_ok win) c w with
        | None => None
        | Some (c, w) => run interval rest c w
        end
    end
  else Some (Exited, c, w).

(** ** The reporter, [print_fps] *)

Open Scope string_scope.

Definition ESC : string := String (ascii_of_nat 27) EmptyString.

(** [operator<<] on an [int]. *)
Definition to_string (z : Z) : string := NilZero.string_of_int (Z.to_int z).

(** The [for] loop over [fps_map], appending to the text written so far. *)
Fixpoint print_entries (count current : nat) (entries : StdMap.t Z)
  (out : string) : string :=
  match entries with
  | [] => out
  | (id, fps) :: rest =>
      let current := S current in
      let out :=
        if (fps <? 5)%Z
        then out ++ ESC ++ "[1;31m" ++ id ++ ": " ++ to_string fps
                 ++ " FPS" ++ ESC ++ "[0m"
        else out ++ id ++ ": " ++ to_string fps ++ " FPS" in
      let out := if (current <? count)%nat then out ++ ", " else out in
      print_entries count current rest out
  end.

(** One pass of the loop body of [print_fps]; [timestamp] is what
    [std::put_time] writes for the current local time.  The text is written
    to [std::cout] piecewise and ended by one [std::endl]. *)
Definition print_fps_iteration (timestamp : string) (w : World) : World :=
  let count := StdMap.size (fps_map w) in
  let out := "[" ++ ESC ++ "[1;34m" ++ timestamp ++ "]" ++ ESC ++ "[0m " in
  emit (Cout (print_entries count 0 (fps_map w) out)) w.

(** [print_fps]: one pass per timestamp given.  The loop condition is the
    constant [true]. *)
Fixpoint print_fps (timestamps : list string) (w : World)
  : loop_status * World :=
  if true then
    match timestamps with
    | [] => (Looping, w)
    | ts :: rest => print_fps rest (print_fps_iteration ts w)
    end
  else (Exited, w).

(** ** Configuration and command line *)

(** The body of the [getline] loop of [read_camera_uris]. *)
Fixpoint read_lines (lines : list string) (index : Z)
  (camera_uris : StdMap.t string) : StdMap.t string :=
  match lines with
  | [] => camera_uris
  | line :: rest =>
      if String.eqb line ""
      then read_lines rest index camera_uris
      else read_lines rest (Int.add index 1)
             (StdMap.set ("cam" ++ to_string index) line camera_uris)
  end.

(** [read_camera_uris]; [file] is [None] when the file cannot be opened and
    otherwise the lines [std::getline] yields. *)
Definition read_camera_uris (filename : string) (file : option (list string))
  (w : World) : StdMap.t string * World :=
  match file with
  | None =>
      (StdMap.empty, emit (Cerr ("Could not open the file: " ++ filename)) w)
  | Some lines => (read_lines lines 0 StdMap.empty, w)
  end.

(** The exceptions of [std::stoi]. *)
Inductive exn : Type :=
| invalid_argument
| out_of_range.

Inductive result (A : Type) : Type :=
| Ok (a : A)
| Throw (e : exn).
Arguments Ok {A} a.
Arguments Throw {A} e.

Definition isspace (c : ascii) : bool :=
  let n := N_of_ascii c in
  ((n =? 32) || ((9 <=? n) && (n <=? 13)))%N.

Definition digit (c : ascii) : option Z :=
  let n := Z.of_N (N_of_ascii c) in
  if ((48 <=? n) && (n <=? 57))%Z then Some (n - 48) else None.

Fixpoint skip_spaces (s : string) : string :=
  match s with
  | String c rest => if isspace c then skip_spaces rest else s
  | EmptyString => s
  end.

(** The longest prefix of decimal digits, as a number; [acc] is [None]
    until a digit has been read. *)
Fixpoint digits (s : string) (acc : option Z) : option Z :=
  match s with
  | String c rest =>
      match digit c with
      | Some d =>
          digits rest (Some (10 * match acc with Some a => a | None => 0 end + d))
      | None => acc
      end
  | EmptyString => acc
  end.

(** [std::stoi(str)] of the C++ standard library, base 10: leading white
    space is skipped, an optional sign and the longest run of digits are
    read, the rest of the string is ignored; [std::invalid_argument] when
    there is no digit, [std::out_of_range] when the value is no [int]. *)
Definition stoi (str : string) : result Z :=
  let s := skip_spaces str in
  let '(neg, s) :=
    match s with
    | String "-" rest => (true, rest)
    | String "+" rest => (false, rest)
    | _ => (false, s)
    end in
  match digits s None with
  | None => Throw invalid_argument
  | Some n =>
      let v := if neg then - n else n in
      if ((Int.INT_MIN <=? v) && (v <=? Int.INT_MAX))%Z
      then Ok v
      else Throw out_of_range
  end.

(** ** [main] *)

(** What the GStreamer calls of [main] return, per camera name. *)
Record Gst : Type := mkGst {
  factory_ok : string -> bool;
  play_ok : string -> bool;
  null_ok : string -> bool
}.

(** How the part of [main] before the 6000 second sleep ends. *)
Inductive outcome : Type :=
| Returned (code : Z)
| Terminated (e : exn)
| Launched (interval : Z) (cams : list Camera).

(** The [for] loop of [main] over [camera_uris]. *)
Fixpoint launch (gst : Gst) (camera_uris : StdMap.t string)
  (cams : list Camera) (w : World) : list Camera * World :=
  match camera_uris with
  | [] => (cams, w)
  | (nm, u) :: rest =>
      let (camera, w) := Camera_new nm u (factory_ok gst nm) w in
      let w := start (play_ok gst nm) camera w in
      let w := emit (Spawn (RunThread nm)) w in
      launch gst rest (cams ++ [camera])%list w
  end.

(** [main] up to the creation of [fps_thread].  [argv] is the argument
    vector as [gst_init] leaves it, [file] the content of
    ["../cameras.txt"].  An exception of [std::stoi] is caught nowhere. *)
Definition main_startup (gst : Gst) (argv : list string)
  (file : option (list string)) (w : World) : outcome * World :=
  if (Z.of_nat (List.length argv) <? 2)%Z then
    (Returned 1,
     emit (Cerr ("Usage: " ++ List.nth 0 argv "" ++ " <interval_in_seconds>")) w)
  else
    match stoi (List.nth 1 argv "") with
    | Throw e => (Terminated e, w)
    | Ok interval =>
        let (camera_uris, w) := read_camera_uris "../cameras.txt" file w in
        let (cams, w) := launch gst camera_uris [] w in
        (Launched interval cams, emit (Spawn FpsThread) w)
    end.

(** [Camera::~Camera] *)
Definition Camera_delete (ok : bool) (c : Camera) (w : World) : World :=
  let w := emit (Cout ("Cleaning up camera for URI: " ++ uri c)) w in
  emit (SetState (uri c) GST_STATE_NULL ok) w.

(** The cleanup loop of [main] after the sleep. *)
Fixpoint cleanup (gst : Gst) (cams : list Camera) (w : World)
  : list Camera * World :=
  match cams with
  | [] => ([], w)
  | camera :: rest =>
      let camera := set_running false camera in
      let w := stop (null_ok gst (name camera)) camera w in
      let w := Camera_delete (null_ok gst (name camera)) camera w in
      let (rest, w) := cleanup gst rest w in
      (camera :: rest, w)
  end.

(** The end of [main]: [fps_thread.join()] returns once [print_fps] has
    returned, then [main] returns 0.  [None]: the join has not returned. *)
Definition main_finish (reporter : loop_status) (w : World)
  : option (outcome * World) :=
  match reporter with
  | Exited => Some (Returned 0, emit (Join FpsThread) w)
  | Looping => None
  end.

(** ** The threads together

    The program as a system of atomic operations on the shared state: the
    bodies of the critical sections and the calls [main] makes.  Any
    interleaving of the threads is a list of operations. *)
Record System : Type := mkSystem {
  world : World;
  cameras : list Camera
}.

Definition initial : System := mkSystem (mkWorld [] [] []) [].

Fixpoint put_camera (i : nat) (c : Camera) (cs : list Camera) : list Camera :=
  match cs, i with
  | [], _ => []
  | _ :: rest, O => c :: rest
  | x :: rest, S j => x :: put_camera j c rest
  end.

Inductive op : Type :=
| OpNew (nm u : string) (made : bool)
| OpStart (i : nat) (ok : bool)
| OpStop (i : nat) (ok : bool)
| OpSetRunning (i : nat) (state : bool)
| OpNewSample (i : nat) (pulled : bool)
| OpRun (i : nat) (stop_ok start_ok : bool)
| OpPrint (timestamp : string).

(** One operation; [None] when it names no camera or its division faults.
    [OpRun] is the pass of camera [i]'s loop that follows a test of [running]
    which found it set, and nothing when it is cleared.  In [Camera::run] the
    flag is read before the sleep, so the pass that follows a
    [set_running(false)] made during the sleep is the interleaving with
    [OpRun] before [OpSetRunning]; the loop itself, with that order kept, is
    [run].  The operations are those of the program up to the cleanup of
    [main]: [delete camera] is not among them. *)
Definition exec (interval : Z) (o : op) (s : System) : option System :=
  let on_camera (i : nat) (f : Camera -> option (Camera * World)) :=
    match List.nth_error (cameras s) i with
    | None => None
    | Some c =>
        match f c with
        | None => None
        | Some (c, w) => Some (mkSystem w (put_camera i c (cameras s)))
        end
    end in
  match o with
  | OpNew nm u made =>
      let (c, w) := Camera_new nm u made (world s) in
      Some (mkSystem w (cameras s ++ [c])%list)
  | OpStart i ok => on_camera i (fun c => Some (c, start ok c (world s)))
  | OpStop i ok => on_camera i (fun c => Some (c, stop ok c (world s)))
  | OpSetRunning i state =>
      on_camera i (fun c => Some (set_running state c, world s))
  | OpNewSample i pulled =>
      on_camera i (fun c => Some (on_new_sample pulled c (world s)))
  | OpRun i stop_ok start_ok =>
      on_camera i (fun c =>
        if running c
        then run_iteration interval stop_ok start_ok c (world s)
        else Some (c, world s))
  | OpPrint timestamp =>
      Some (mkSystem (print_fps_iteration timestamp (world s)) (cameras s))
  end.

Fixpoint exec_all (interval : Z) (ops : list op) (s : System)
  : option System :=
  match ops with
  | [] => Some s
  | o :: rest =>
      match exec interval o s with
      | None => None
      | Some s => exec_all interval rest s
      end
  end.

(** The states the running system can be in. *)
Definition reachable (interval : Z) (s : System) : Prop :=
  exists ops, exec_all interval ops initial = Some s.

(** What holds of the two maps in every reachable state: the registry is in
    key order and every downtime counter lies between -1 and 4. *)
Definition counters_in_range (w : World) : Prop :=
  forall k, (-1 <= downtime k w <= 4)%Z.

Definition invariant (s : System) : Prop :=
  StdMap.ordered (fps_map (world s)) /\ counters_in_range (world s).

(** The usage line of [main]. *)
Definition usage (argv : list string) : event :=
  Cerr ("Usage: " ++ List.nth 0 argv "" ++ " <interval_in_seconds>")%string.

(** ** Scenarios *)

(** A window that delivers no frame and in which [main] does not stop the
    camera. *)
Definition zero_window (win : window) : Prop :=
  frames_delivered (samples win) = 0 /\ stop_request win = false.

(** A camera as its thread finds it: constructed and started, in order, as
    the loop of [main] does before it creates the thread. *)
Definition supervisor_started (nm u : string) (made play : bool) (w : World)
  : Camera * World :=
  let (camera, w) := Camera_new nm u made w in
  (camera, start play camera w).

(** ** The report line, as specified

    [[<timestamp>] id1: n1 FPS, id2: n2 FPS, ...], an entry below 5 fps in
    the warning colour.  [print_fps_iteration] is compared with this. *)
Definition item (id : string) (fps : Z) : string :=
  (id ++ ": " ++ to_string fps ++ " FPS")%string.

Definition warning (text : string) : string :=
  (ESC ++ "[1;31m" ++ text ++ ESC ++ "[0m")%string.

Definition render_entry (e : string * Z) : string :=
  if (snd e <? 5)%Z then warning (item (fst e) (snd e))
  else item (fst e) (snd e).

Definition report_line (timestamp : string) (entries : StdMap.t Z) : string :=
  ("[" ++ ESC ++ "[1;34m" ++ timestamp ++ "]" ++ ESC ++ "[0m "
   ++ String.concat ", " (List.map render_entry entries))%string.

(** ** Pad callbacks

    The elements whose sink pad a callback links to, and the calls of
    [gst_pad_link] and [gst_element_link] a callback makes: from the new pad
    ([None]) or from an element, to an element's sink, with the result. *)
Inductive element : Type :=
| parsebin
| appsink
| rtph264depay
| rtph265depay
| rtpmjpegdepay
| rtppv8depay
| rtppv9depay
| rtph263depay.

Record link : Type := mkLink {
  link_from : option element;
  link_to : element;
  link_ok : bool
}.

(** [Camera::on_pad_added] of [check_fps.cpp]; [encoding_name] is what
    [gst_structure_get_string] returns, [linked] whether [gst_pad_link]
    returned [GST_PAD_LINK_OK]. *)
Definition on_pad_added (encoding_name : option string) (linked : bool)
  (c : Camera) (w : World) : list link * World :=
  let w := emit (Cout ("Pad added for camera: " ++ uri c)) w in
  match encoding_name with
  | Some enc =>
      let w := emit (Cout ("ENCODING NAME: " ++ enc)) w in
      if linked
      then ([mkLink None parsebin linked], w)
      else ([mkLink None parsebin linked],
            emit (Cerr "Failed to link pad from rtspsrc to parsebin!") w)
  | None => ([], emit (Cout "Failed to get encoding-name.") w)
  end.

(** [Camera::on_parsebin_pad_added] *)
Definition on_parsebin_pad_added (linked : bool) (c : Camera) (w : World)
  : list link * World :=
  let w := emit (Cout ("Pad added for parsebin for camera: " ++ uri c)) w in
  if linked
  then ([mkLink None appsink linked],
        emit (Cout "Linked pad from parsebin to appsink.") w)
  else ([mkLink None appsink linked],
        emit (Cerr "Failed to link parsebin pad to appsink!") w).

(** The earlier program kept in [src/unnamed/part_000], which links the
    source pad to one of six depayloaders by the encoding name. *)
Module Part000.

(** The first [if] chain of [on_pad_added]: the depayloader whose sink the
    new pad is linked to. *)
Definition pad_target (enc : string) : option element :=
  if String.eqb enc "H265" then Some rtph265depay
  else if String.eqb enc "H264" then Some rtph264depay
  else if String.eqb enc "JPEG" then Some rtpmjpegdepay
  else if String.eqb enc "VP8" then Some rtppv8depay
  else if String.eqb enc "VP9" then Some rtppv9depay
  else if String.eqb enc "H263" then Some rtph263depay
  else None.

(** The second [if] chain: the depayloader linked to the appsink, with the
    name its error line uses. *)
Definition appsink_source (enc : string) : option (element * string) :=
  if String.eqb enc "H264" then Some (rtph264depay, "rtph264depay")
  else if String.eqb enc "H265" then Some (rtph265depay, "rtph265depay")
  else if String.eqb enc "JPEG" then Some (rtpmjpegdepay, "rtpmjpegdepay")
  else if String.eqb enc "VP8" then Some (rtppv8depay, "rtppv8depay")
  else if String.eqb enc "VP9" then Some (rtppv9depay, "rtppv9depay")
  else if String.eqb enc "H263" then Some (rtph263depay, "rtph263depay")
  else None.

(** [Camera::on_pad_added]; [pad_linked] and [element_linked] are the
    results of [gst_pad_link] and [gst_element_link]. *)
Definition on_pad_added (encoding_name : option string)
  (pad_linked element_linked : bool) (c : Camera) (w : World)
  : list link * World :=
  let w := emit (Cout ("Pad added for camera: " ++ uri c)) w in
  match encoding_name with
  | None => ([], emit (Cout "Failed to get encoding-name.") w)
  | Some enc =>
      let w := emit (Cout ("ENCODING NAME: " ++ enc)) w in
      match pad_target enc with
      | None => ([], emit (Cerr ("Unsupported encoding name: " ++ enc)) w)
      | Some depay =>
          let l1 := mkLink None depay pad_linked in
          if pad_linked then
            let w := emit (Cout "Linked pad from rtspsrc to depayloader.") w in
            match appsink_source enc with
            | Some (src, label) =>
                let l2 := mkLink (Some src) appsink element_linked in
                if element_linked
                then ([l1; l2], w)
                else ([l1; l2],
                      emit (Cerr ("Failed to link " ++ label ++ " -> appsink!"))
                        w)
            | None => ([l1], w)
            end
          else
            ([l1],
             emit (Cerr "Failed to link pad from rtspsrc to depayloader!") w)
      end
  end.

End Part000.

(** The lines of the list file that name a camera. *)
Definition named_lines (lines : list string) : list string :=
  List.filter (fun line => negb (String.eqb line "")) lines.

(** Number of pipeline state changes in a trace. *)
Definition state_changes (tr : list event) : Z :=
  Z.of_nat (List.length (set_states tr)).

(** The camera [main] creates for an entry of [camera_uris]. *)
Definition launched_camera (gst : Gst) (entry : string * string) : Camera :=
  mkCamera (fst entry) (snd entry) (factory_ok gst (fst entry)) 0 true.

Definition launched_start (gst : Gst) (entry : string * string) : event :=
  SetState (snd entry) GST_STATE_PLAYING (play_ok gst (fst entry)).

(** What identifies a camera: the members no operation assigns. *)
Definition identity (c : Camera) : string * string * bool :=
  (name c, uri c, elements_ok c).

(** A window that delivers at least one frame per second of the interval
    and in which [main] does not stop the camera. *)
Definition healthy_window (interval : Z) (win : window) : Prop :=
  (interval <= frames_delivered (samples win) <= Int.INT_MAX)%Z /\
  stop_request win = false.

(** The cameras a list of operations constructs, in order, each by its
    name, URI and element status. *)
Definition constructed (ops : list op) : list (string * string * bool) :=
  List.flat_map
    (fun o => match o with
              | OpNew nm u made => [(nm, u, made)]
              | _ => []
              end) ops.

(** * Properties *)

Close Scope string_scope.

(** ** Arithmetic on [int] *)

Lemma Int_wrap_in_range z : Int.in_range z -> Int.wrap z = z.
Proof.
  unfold Int.in_range, Int.wrap, Int.INT_MIN, Int.INT_MAX. intros H.
  rewrite Z.mod_small by lia. lia.
Qed.

Lemma Int_add_small a b : Int.in_range (a + b) -> Int.add a b = a + b.
Proof. apply Int_wrap_in_range. Qed.

Lemma Int_div_pos a b : 0 <= a -> 0 < b -> Int.div a b = Some (a / b).
Proof.
  intros Ha Hb. unfold Int.div.
  destruct (Z.eqb_spec b 0); [lia|].
  destruct (Z.eqb_spec b (-1)); [lia|].
  rewrite andb_false_r. now rewrite Z.quot_div_nonneg by lia.
Qed.

Lemma Int_div_defined a b :
  Int.div a b <> None <-> b <> 0 /\ ~ (a = Int.INT_MIN /\ b = -1).
Proof.
  unfold Int.div.
  destruct (Z.eqb_spec b 0); [intuition congruence|].
  destruct (Z.eqb_spec a Int.INT_MIN), (Z.eqb_spec b (-1)); simpl;
    intuition congruence.
Qed.

Lemma Int_div_zero_frames b : b <> 0 -> Int.div 0 b = Some 0.
Proof.
  intros Hb. unfold Int.div.
  destruct (Z.eqb_spec b 0); [contradiction|]. reflexivity.
Qed.

(** ** The ordered map *)

Lemma compare_refl k : String.compare k k = Eq.
Proof. now apply String_as_OT.cmp_eq. Qed.

Lemma slt_trans a b c : StdMap.slt a b -> StdMap.slt b c -> StdMap.slt a c.
Proof.
  unfold StdMap.slt. intros Hab Hbc.
  apply String_as_OT.cmp_lt in Hab. apply String_as_OT.cmp_lt in Hbc.
  apply String_as_OT.cmp_lt. eapply String_as_OT.lt_trans; eassumption.
Qed.

Lemma compare_gt_lt a b : String.compare a b = Gt -> StdMap.slt b a.
Proof.
  unfold StdMap.slt. intros H. rewrite String.compare_antisym, H. reflexivity.
Qed.

Lemma slt_irrefl a : ~ StdMap.slt a a.
Proof. unfold StdMap.slt. rewrite compare_refl. discriminate. Qed.

Lemma slt_asym a b : StdMap.slt a b -> String.compare b a = Gt.
Proof.
  unfold StdMap.slt. intros H. rewrite String.compare_antisym, H. reflexivity.
Qed.

Section MapFacts.

Context {V : Type}.
Implicit Types (m : StdMap.t V) (k : string) (v : V).

Lemma find_set_same k v m : StdMap.find k (StdMap.set k v m) = Some v.
Proof.
  induction m as [|[k' v'] rest IH]; simpl.
  - now rewrite compare_refl.
  - destruct (String.compare k k') eqn:E; simpl.
    + now rewrite compare_refl.
    + now rewrite compare_refl.
    + now rewrite E.
Qed.

Lemma find_set_other k k2 v m :
  k2 <> k -> StdMap.find k2 (StdMap.set k v m) = StdMap.find k2 m.
Proof.
  intros Hne. induction m as [|[k' v'] rest IH]; simpl.
  - destruct (String.compare k2 k) eqn:E; try reflexivity.
    apply String.compare_eq_iff in E. contradiction.
  - destruct (String.compare k k') eqn:E; simpl.
    + apply String.compare_eq_iff in E. subst k'.
      destruct (String.compare k2 k) eqn:E2; try reflexivity.
      apply String.compare_eq_iff in E2. contradiction.
    + destruct (String.compare k2 k) eqn:E2.
      * apply String.compare_eq_iff in E2. contradiction.
      * now rewrite (slt_trans _ _ _ E2 E).
      * reflexivity.
    + destruct (String.compare k2 k'); auto.
Qed.

Lemma keys_set_in k v m x :
  In x (StdMap.keys (StdMap.set k v m)) <-> x = k \/ In x (StdMap.keys m).
Proof.
  induction m as [|[k' v'] rest IH]; simpl.
  - intuition.
  - destruct (String.compare k k') eqn:E; simpl.
    + apply String.compare_eq_iff in E. subst. intuition.
    + intuition.
    + unfold StdMap.keys in IH. rewrite IH. intuition.
Qed.

Lemma ordered_set k v m : StdMap.ordered m -> StdMap.ordered (StdMap.set k v m).
Proof.
  unfold StdMap.ordered.
  induction m as [|[k' v'] rest IH]; simpl; intros Hs.
  - repeat constructor.
  - inversion Hs as [|? ? Hrest Hall]; subst.
    destruct (String.compare k k') eqn:E; simpl.
    + apply String.compare_eq_iff in E. subst. now constructor.
    + constructor; [exact Hs|]. constructor; [exact E|].
      eapply Forall_impl; [|exact Hall]. intros a Ha. eapply slt_trans; eauto.
    + constructor; [now apply IH|].
      apply Forall_forall. intros x Hx.
      apply (keys_set_in k v rest x) in Hx. destruct Hx as [->|Hx].
      * now apply compare_gt_lt.
      * rewrite Forall_forall in Hall. now apply Hall.
Qed.

Lemma count_key_cons k k' v' m :
  StdMap.count_key k ((k', v') :: m) =
  ((if String.eqb k k' then 1 else 0) + StdMap.count_key k m)%nat.
Proof.
  unfold StdMap.count_key. simpl. now destruct (String.eqb k k').
Qed.

Lemma count_key_above k m :
  Forall (StdMap.slt k) (StdMap.keys m) -> StdMap.count_key k m = 0%nat.
Proof.
  induction m as [|[k' v'] rest IH]; simpl; intros H; [reflexivity|].
  inversion H as [|? ? Hlt Hrest]; subst. rewrite count_key_cons.
  destruct (String.eqb_spec k k') as [->|_].
  - now apply slt_irrefl in Hlt.
  - now apply IH.
Qed.

Lemma count_key_set_same k v m :
  StdMap.ordered m -> StdMap.count_key k (StdMap.set k v m) = 1%nat.
Proof.
  unfold StdMap.ordered.
  induction m as [|[k' v'] rest IH]; simpl; intros Hs.
  - rewrite count_key_cons, String.eqb_refl. reflexivity.
  - inversion Hs as [|? ? Hrest Hall]; subst.
    destruct (String.compare k k') eqn:E.
    + apply String.compare_eq_iff in E. subst k'.
      rewrite count_key_cons, String.eqb_refl, count_key_above; auto.
    + rewrite count_key_cons, String.eqb_refl.
      rewrite (count_key_above k ((k', v') :: rest)); [reflexivity|].
      constructor; [exact E|].
      eapply Forall_impl; [|exact Hall]. intros a Ha. eapply slt_trans; eauto.
    + rewrite count_key_cons.
      destruct (String.eqb_spec k k') as [->|_].
      * rewrite compare_refl in E. discriminate.
      * now apply IH.
Qed.

Lemma count_key_set_other k k2 v m :
  k2 <> k -> StdMap.count_key k2 (StdMap.set k v m) = StdMap.count_key k2 m.
Proof.
  intros Hne.
  induction m as [|[k' v'] rest IH]; simpl.
  - rewrite count_key_cons.
    destruct (String.eqb_spec k2 k); [contradiction|reflexivity].
  - destruct (String.compare k k') eqn:E.
    + apply String.compare_eq_iff in E. subst k'. rewrite !count_key_cons.
      destruct (String.eqb_spec k2 k); [contradiction|reflexivity].
    + rewrite (count_key_cons k2 k).
      destruct (String.eqb_spec k2 k); [contradiction|reflexivity].
    + rewrite !count_key_cons. now rewrite IH.
Qed.

Lemma find_below_head k k' v' rest :
  StdMap.slt k k' -> StdMap.find k ((k', v') :: rest) = None.
Proof. unfold StdMap.slt. simpl. now intros ->. Qed.

Lemma find_above_all k m :
  Forall (StdMap.slt k) (StdMap.keys m) -> StdMap.find k m = None.
Proof.
  destruct m as [|[k' v'] rest]; [reflexivity|].
  intros H. inversion H; subst. now apply find_below_head.
Qed.

(** Two ordered maps with the same lookups are the same list: the order of
    the entries does not depend on the order of the writes. *)
Lemma ordered_ext m1 m2 :
  StdMap.ordered m1 -> StdMap.ordered m2 ->
  (forall k, StdMap.find k m1 = StdMap.find k m2) -> m1 = m2.
Proof.
  unfold StdMap.ordered. revert m2.
  induction m1 as [|[k1 v1] r1 IH]; intros [|[k2 v2] r2] H1 H2 Hext.
  - reflexivity.
  - specialize (Hext k2). simpl in Hext. rewrite compare_refl in Hext.
    discriminate.
  - specialize (Hext k1). simpl in Hext. rewrite compare_refl in Hext.
    discriminate.
  - simpl in H1, H2.
    inversion H1 as [|? ? Hr1 Ha1]; inversion H2 as [|? ? Hr2 Ha2]; subst.
    assert (Hk : k1 = k2).
    { pose proof (Hext k1) as E1. pose proof (Hext k2) as E2. simpl in E1, E2.
      rewrite compare_refl in E1, E2.
      destruct (String.compare k1 k2) eqn:C12.
      - now apply String.compare_eq_iff.
      - discriminate.
      - rewrite (compare_gt_lt _ _ C12) in E2. discriminate. }
    subst k2.
    assert (Hv : v1 = v2).
    { specialize (Hext k1). simpl in Hext. rewrite compare_refl in Hext.
      congruence. }
    subst v2. f_equal. apply IH; auto.
    intros k. specialize (Hext k). simpl in Hext.
    destruct (String.compare k k1) eqn:C.
    + apply String.compare_eq_iff in C. subst k.
      now rewrite !find_above_all.
    + rewrite !find_above_all; auto.
      * eapply Forall_impl; [|exact Ha2]. intros a Ha. eapply slt_trans; eauto.
      * eapply Forall_impl; [|exact Ha1]. intros a Ha. eapply slt_trans; eauto.
    + exact Hext.
Qed.

End MapFacts.

Lemma get_set_same k v (m : StdMap.t Z) : StdMap.get k (StdMap.set k v m) = v.
Proof. unfold StdMap.get. now rewrite find_set_same. Qed.

Lemma get_set_other k k2 v (m : StdMap.t Z) :
  k2 <> k -> StdMap.get k2 (StdMap.set k v m) = StdMap.get k2 m.
Proof. intros H. unfold StdMap.get. now rewrite find_set_other. Qed.

(** ** Effects of the camera operations on the world *)

Lemma set_states_app tr1 tr2 :
  set_states (tr1 ++ tr2)%list = (set_states tr1 ++ set_states tr2)%list.
Proof. apply filter_app. Qed.

Lemma downtime_emit k e w : downtime k (emit e w) = downtime k w.
Proof. reflexivity. Qed.

Lemma downtime_set_fps k k' v w : downtime k (set_fps k' v w) = downtime k w.
Proof. reflexivity. Qed.

Lemma downtime_set_same k v w : downtime k (set_downtime k v w) = v.
Proof. apply get_set_same. Qed.

Lemma downtime_set_other k k2 v w :
  k2 <> k -> downtime k2 (set_downtime k v w) = downtime k2 w.
Proof. apply get_set_other. Qed.

Lemma downtime_start k ok c w : downtime k (start ok c w) = downtime k w.
Proof. unfold start. now destruct ok. Qed.

Lemma downtime_stop k ok c w : downtime k (stop ok c w) = downtime k w.
Proof. unfold stop. now destruct ok. Qed.

Lemma fps_map_start ok c w : fps_map (start ok c w) = fps_map w.
Proof. unfold start. now destruct ok. Qed.

Lemma fps_map_stop ok c w : fps_map (stop ok c w) = fps_map w.
Proof. unfold stop. now destruct ok. Qed.

Lemma set_states_start ok c w :
  set_states (trace (start ok c w)) =
  (set_states (trace w) ++ [SetState (uri c) GST_STATE_PLAYING ok])%list.
Proof.
  unfold start. destruct ok; simpl; rewrite !set_states_app; simpl;
    now rewrite !app_nil_r.
Qed.

Lemma set_states_stop ok c w :
  set_states (trace (stop ok c w)) =
  (set_states (trace w) ++ [SetState (uri c) GST_STATE_NULL ok])%list.
Proof.
  unfold stop. destruct ok; simpl; rewrite !set_states_app; simpl;
    now rewrite !app_nil_r.
Qed.

(** The stall policy in closed form: the counter after the pass and the
    state changes the pass adds. *)
Lemma stall_policy_zero stop_ok start_ok c w :
  Int.in_range (downtime (name c) w + 1) ->
  let d := downtime (name c) w + 1 in
  let w' := stall_policy 0 stop_ok start_ok c w in
  (5 <= d ->
     downtime (name c) w' = 0 /\
     set_states (trace w') =
       (set_states (trace w) ++
        [SetState (uri c) GST_STATE_NULL stop_ok;
         SetState (uri c) GST_STATE_PLAYING start_ok])%list) /\
  (d < 5 ->
     downtime (name c) w' = d /\ set_states (trace w') = set_states (trace w)).
Proof.
  intros Hr d w'. subst d w'. unfold stall_policy. simpl (0 =? 0).
  cbv iota. rewrite downtime_set_same, (Int_add_small _ _ Hr).
  destruct (Z.geb_spec (downtime (name c) w + 1) 5) as [Hge|Hlt]; split;
    intros H; try lia.
  - split; [apply downtime_set_same|].
    change (trace (set_downtime (name c) 0 ?x)) with (trace x).
    rewrite set_states_start, set_states_stop. simpl.
    rewrite set_states_app. simpl. now rewrite app_nil_r, <- app_assoc.
  - split; [apply downtime_set_same|reflexivity].
Qed.

Lemma stall_policy_nonzero fps stop_ok start_ok c w :
  fps <> 0 ->
  let w' := stall_policy fps stop_ok start_ok c w in
  downtime (name c) w' = 0 /\ trace w' = trace w.
Proof.
  intros Hne. unfold stall_policy.
  destruct (Z.eqb_spec fps 0); [contradiction|].
  split; [apply downtime_set_same|reflexivity].
Qed.

(** C1: in every pass of [Camera::run] whose division is defined, a zero
    fps increments the camera's downtime counter, and when the incremented
    counter is at least 5 the pipeline is stopped and then started and the
    counter ends at 0 whatever the two state changes return; a positive fps
    sets the counter to 0 and changes no pipeline state. *)
Theorem run_iteration_stall_policy interval stop_ok start_ok c w fps :
  Int.div (frame_count c) interval = Some fps ->
  Int.in_range (downtime (name c) w + 1) ->
  exists c' w',
    run_iteration interval stop_ok start_ok c w = Some (c', w') /\
    (fps = 0 ->
       let d := downtime (name c) w + 1 in
       (5 <= d ->
          downtime (name c) w' = 0 /\
          set_states (trace w') =
            (set_states (trace w) ++
             [SetState (uri c) GST_STATE_NULL stop_ok;
              SetState (uri c) GST_STATE_PLAYING start_ok])%list) /\
       (d < 5 ->
          downtime (name c) w' = d /\
          set_states (trace w') = set_states (trace w))) /\
    (0 < fps ->
       downtime (name c) w' = 0 /\
       set_states (trace w') = set_states (trace w)).
Proof.
  intros Hdiv Hr. unfold run_iteration. rewrite Hdiv.
  eexists _, _. split; [reflexivity|]. split.
  - intros ->.
    apply (stall_policy_zero stop_ok start_ok (with_frame_count 0 c)
             (set_fps (name c) 0 w) Hr).
  - intros Hpos.
    destruct (stall_policy_nonzero fps stop_ok start_ok (with_frame_count 0 c)
                (set_fps (name c) fps w)) as [H1 H2]; [lia|].
    split; [exact H1|]. simpl in H2. simpl. now rewrite H2.
Qed.

(** A camera in its fifth consecutive stalled window, the restart failing. *)
Lemma run_iteration_stall_policy_witness :
  let c := mkCamera "cam0" "rtsp://a" true 0 true in
  let w := mkWorld [] [("cam0"%string, 4)] [] in
  Int.div (frame_count c) 1 = Some 0 /\
  Int.in_range (downtime (name c) w + 1) /\
  exists c' w',
    run_iteration 1 true false c w = Some (c', w') /\
    (0 = 0 ->
       let d := downtime (name c) w + 1 in
       (5 <= d ->
          downtime (name c) w' = 0 /\
          set_states (trace w') =
            (set_states (trace w) ++
             [SetState (uri c) GST_STATE_NULL true;
              SetState (uri c) GST_STATE_PLAYING false])%list) /\
       (d < 5 ->
          downtime (name c) w' = d /\
          set_states (trace w') = set_states (trace w))) /\
    (0 < 0 ->
       downtime (name c) w' = 0 /\
       set_states (trace w') = set_states (trace w)).
Proof.
  intros c w.
  assert (Hd : Int.div (frame_count c) 1 = Some 0) by reflexivity.
  assert (Hr : Int.in_range (downtime (name c) w + 1))
    by (unfold Int.in_range, Int.INT_MIN, Int.INT_MAX; simpl; lia).
  split; [exact Hd|]. split; [exact Hr|].
  exact (run_iteration_stall_policy 1 true false c w 0 Hd Hr).
Defined.

(** ** Counting frames and publishing the rate *)

Lemma frames_delivered_nonneg pulls : 0 <= frames_delivered pulls.
Proof. unfold frames_delivered. lia. Qed.

Lemma frames_delivered_cons b pulls :
  frames_delivered (b :: pulls) =
  (if b then 1 else 0) + frames_delivered pulls.
Proof. unfold frames_delivered. destruct b; cbn [filter List.length]; lia. Qed.

Lemma deliver_name pulls c w : name (fst (deliver pulls c w)) = name c.
Proof.
  revert c w. induction pulls as [|b rest IH]; intros c w; [reflexivity|].
  simpl. destruct b; simpl; now rewrite IH.
Qed.

Lemma deliver_running pulls c w :
  running (fst (deliver pulls c w)) = running c.
Proof.
  revert c w. induction pulls as [|b rest IH]; intros c w; [reflexivity|].
  simpl. destruct b; simpl; now rewrite IH.
Qed.

Lemma deliver_maps pulls c w :
  fps_map (snd (deliver pulls c w)) = fps_map w /\
  downtime_map (snd (deliver pulls c w)) = downtime_map w /\
  set_states (trace (snd (deliver pulls c w))) = set_states (trace w).
Proof.
  revert c w. induction pulls as [|b rest IH]; intros c w; [now auto|].
  simpl. destruct b.
  - apply IH.
  - destruct (IH c (emit (Cerr ("Failed to pull sample for camera: "
                                ++ uri c)%string) w)) as (H1 & H2 & H3).
    unfold on_new_sample. cbv iota.
    rewrite H1, H2, H3. simpl. rewrite set_states_app. simpl.
    now rewrite app_nil_r.
Qed.

(** The callbacks of one window add the delivered frames to the counter. *)
Lemma deliver_frame_count pulls c w :
  0 <= frame_count c ->
  frame_count c + frames_delivered pulls <= Int.INT_MAX ->
  frame_count (fst (deliver pulls c w)) = frame_count c + frames_delivered pulls.
Proof.
  revert c w. induction pulls as [|b rest IH]; intros c w H0 Hmax.
  - unfold frames_delivered. simpl. lia.
  - rewrite frames_delivered_cons in *.
    pose proof (frames_delivered_nonneg rest) as Hn.
    cbn [deliver]. destruct b; cbn [on_new_sample].
    + assert (Ha : Int.add (frame_count c) 1 = frame_count c + 1).
      { apply Int_add_small. unfold Int.in_range, Int.INT_MIN, Int.INT_MAX in *.
        lia. }
      rewrite IH; cbn [frame_count with_frame_count]; rewrite Ha; lia.
    + rewrite IH; cbn [frame_count]; lia.
Qed.

Lemma fps_map_stall_policy fps stop_ok start_ok c w :
  fps_map (stall_policy fps stop_ok start_ok c w) = fps_map w.
Proof.
  unfold stall_policy. destruct (fps =? 0); [|reflexivity].
  match goal with |- context [if ?b then _ else _] => destruct b end;
    [|reflexivity].
  simpl. now rewrite fps_map_start, fps_map_stop.
Qed.

Lemma run_iteration_some interval stop_ok start_ok c w fps :
  Int.div (frame_count c) interval = Some fps ->
  run_iteration interval stop_ok start_ok c w =
  Some (with_frame_count 0 c,
        stall_policy fps stop_ok start_ok (with_frame_count 0 c)
          (set_fps (name c) fps w)).
Proof. intros H. unfold run_iteration. now rewrite H. Qed.

(** C3: for a positive interval, the pass that closes a sampling window
    writes, under the camera's name, the number of frames the window
    delivered divided by the interval (integer division) into [fps_map],
    and leaves the frame counter at 0. *)
Theorem run_iteration_publishes_fps interval pulls stop_ok start_ok c w :
  0 < interval ->
  frame_count c = 0 ->
  frames_delivered pulls <= Int.INT_MAX ->
  exists c' w',
    run_iteration interval stop_ok start_ok
      (fst (deliver pulls c w)) (snd (deliver pulls c w)) = Some (c', w') /\
    StdMap.find (name c) (fps_map w') = Some (frames_delivered pulls / interval) /\
    frame_count c' = 0 /\
    name c' = name c.
Proof.
  intros Hi Hc Hmax.
  pose proof (frames_delivered_nonneg pulls) as Hn.
  assert (Hfc : frame_count (fst (deliver pulls c w)) = frames_delivered pulls).
  { rewrite deliver_frame_count; lia. }
  assert (Hdiv : Int.div (frame_count (fst (deliver pulls c w))) interval
                 = Some (frames_delivered pulls / interval)).
  { rewrite Hfc. now apply Int_div_pos. }
  rewrite (run_iteration_some _ _ _ _ _ _ Hdiv).
  eexists _, _. split; [reflexivity|].
  rewrite fps_map_stall_policy. simpl. rewrite deliver_name.
  split; [apply find_set_same|]. split; reflexivity.
Qed.

(** Seven callbacks, one failed pull, sampled every 2 seconds. *)
Lemma run_iteration_publishes_fps_witness :
  let c := mkCamera "cam0" "rtsp://a" true 0 true in
  let w := mkWorld [] [("cam0"%string, 0)] [] in
  let pulls := [true; true; false; true; true; true; true] in
  0 < 2 /\ frame_count c = 0 /\ frames_delivered pulls <= Int.INT_MAX /\
  exists c' w',
    run_iteration 2 true true
      (fst (deliver pulls c w)) (snd (deliver pulls c w)) = Some (c', w') /\
    StdMap.find (name c) (fps_map w') = Some (frames_delivered pulls / 2) /\
    frame_count c' = 0 /\
    name c' = name c.
Proof.
  intros c w pulls.
  assert (H1 : 0 < 2) by lia.
  assert (H2 : frame_count c = 0) by reflexivity.
  assert (H3 : frames_delivered pulls <= Int.INT_MAX)
    by (vm_compute; discriminate).
  repeat split; try assumption.
  exact (run_iteration_publishes_fps 2 pulls true true c w H1 H2 H3).
Defined.

(** ** Stalled windows *)

Lemma with_frame_count_same c : frame_count c = 0 -> with_frame_count 0 c = c.
Proof. destruct c; simpl; intros ->; reflexivity. Qed.

Lemma deliver_nothing pulls c w :
  frames_delivered pulls = 0 -> fst (deliver pulls c w) = c.
Proof.
  revert c w. induction pulls as [|b rest IH]; intros c w H; [reflexivity|].
  rewrite frames_delivered_cons in H.
  pose proof (frames_delivered_nonneg rest).
  destruct b; [lia|]. cbn [deliver on_new_sample]. apply IH. lia.
Qed.

Lemma downtime_deliver k pulls c w :
  downtime k (snd (deliver pulls c w)) = downtime k w.
Proof.
  unfold downtime. now destruct (deliver_maps pulls c w) as (_ & -> & _).
Qed.

(** One stalled window of a live loop: the camera is as before, the counter
    moves by the stall policy. *)
Lemma run_zero_window interval win rest c w :
  interval <> 0 ->
  frame_count c = 0 ->
  running c = true ->
  zero_window win ->
  Int.in_range (downtime (name c) w + 1) ->
  exists w',
    run interval (win :: rest) c w = run interval rest c w' /\
    let d := downtime (name c) w + 1 in
    (5 <= d ->
       downtime (name c) w' = 0 /\
       set_states (trace w') =
         (set_states (trace w) ++
          [SetState (uri c) GST_STATE_NULL (stop_ok win);
           SetState (uri c) GST_STATE_PLAYING (start_ok win)])%list) /\
    (d < 5 ->
       downtime (name c) w' = d /\ set_states (trace w') = set_states (trace w)).
Proof.
  intros Hi Hfc Hrun [Hz Hs] Hr.
  cbn [run]. rewrite Hrun.
  destruct (deliver (samples win) c w) as [c1 w1] eqn:Hd.
  assert (Hc1 : c1 = c).
  { change c1 with (fst (c1, w1)). rewrite <- Hd. now apply deliver_nothing. }
  assert (Hw1 : w1 = snd (deliver (samples win) c w)) by now rewrite Hd.
  subst c1. rewrite Hs.
  assert (Hdiv : Int.div (frame_count c) interval = Some 0).
  { rewrite Hfc. now apply Int_div_zero_frames. }
  rewrite (run_iteration_some _ _ _ _ _ _ Hdiv).
  rewrite (with_frame_count_same c Hfc).
  eexists. split; [reflexivity|].
  assert (Hdt : downtime (name c) (set_fps (name c) 0 w1) = downtime (name c) w).
  { rewrite downtime_set_fps, Hw1. apply downtime_deliver. }
  assert (Htr : set_states (trace (set_fps (name c) 0 w1)) = set_states (trace w)).
  { cbn [set_fps trace]. rewrite Hw1. apply deliver_maps. }
  pose proof (stall_policy_zero (stop_ok win) (start_ok win) c
                (set_fps (name c) 0 w1)) as P.
  rewrite Hdt, Htr in P. exact (P Hr).
Qed.

(** A run of stalled windows that stays below the threshold only counts. *)
Lemma run_zero_windows_below interval ws rest c w :
  interval <> 0 ->
  frame_count c = 0 ->
  running c = true ->
  Forall zero_window ws ->
  -1 <= downtime (name c) w ->
  downtime (name c) w + Z.of_nat (List.length ws) < 5 ->
  exists w',
    run interval (ws ++ rest)%list c w = run interval rest c w' /\
    downtime (name c) w' = downtime (name c) w + Z.of_nat (List.length ws) /\
    set_states (trace w') = set_states (trace w).
Proof.
  intros Hi Hfc Hrun. revert w.
  induction ws as [|win ws IH]; intros w Hall Hlo Hhi.
  - exists w. cbn [List.length Z.of_nat app]. repeat split; lia.
  - inversion Hall as [|? ? Hwin Hall']; subst.
    cbn [List.length] in Hhi. rewrite Nat2Z.inj_succ in Hhi.
    destruct (run_zero_window interval win (ws ++ rest)%list c w Hi Hfc Hrun Hwin)
      as (w1 & Hstep & _ & Hbelow).
    { unfold Int.in_range, Int.INT_MIN, Int.INT_MAX. lia. }
    destruct Hbelow as [Hd1 Ht1]; [lia|].
    destruct (IH w1 Hall') as (w' & Hrest & Hd & Ht); [lia|lia|].
    exists w'. cbn [List.length app]. rewrite Nat2Z.inj_succ.
    repeat split; [congruence|lia|congruence].
Qed.

Lemma supervisor_started_camera nm u made play w :
  fst (supervisor_started nm u made play w) = mkCamera nm u made 0 true.
Proof. unfold supervisor_started, Camera_new. now destruct made. Qed.

Lemma supervisor_started_downtime nm u made play w :
  downtime nm (snd (supervisor_started nm u made play w)) = -1.
Proof.
  unfold supervisor_started, Camera_new.
  destruct made; cbn [snd]; rewrite downtime_start, downtime_emit;
    apply downtime_set_same.
Qed.

(** C2, as the code has it: the constructor leaves the counter at -1, so a
    camera that delivers no frame from its start is not reconnected in its
    first five windows (the counter is then 4); it is reconnected exactly
    once in the pass closing the sixth window, and the counter is 0 right
    after that reconnect. *)
Theorem first_reconnect_in_sixth_window
  nm u made play interval w0 win1 win2 win3 win4 win5 win6 :
  interval <> 0 ->
  Forall zero_window [win1; win2; win3; win4; win5; win6] ->
  let c := fst (supervisor_started nm u made play w0) in
  let w := snd (supervisor_started nm u made play w0) in
  (exists w5,
     run interval [win1; win2; win3; win4; win5] c w = Some (Looping, c, w5) /\
     set_states (trace w5) = set_states (trace w) /\
     downtime nm w5 = 4) /\
  (exists w6,
     run interval [win1; win2; win3; win4; win5; win6] c w
       = Some (Looping, c, w6) /\
     set_states (trace w6) =
       (set_states (trace w) ++
        [SetState u GST_STATE_NULL (stop_ok win6);
         SetState u GST_STATE_PLAYING (start_ok win6)])%list /\
     downtime nm w6 = 0).
Proof.
  intros Hi Hall c w.
  assert (Hc : c = mkCamera nm u made 0 true)
    by apply supervisor_started_camera.
  assert (Hd : downtime (name c) w = -1).
  { rewrite Hc. apply supervisor_started_downtime. }
  assert (Hfc : frame_count c = 0) by now rewrite Hc.
  assert (Hrun : running c = true) by now rewrite Hc.
  assert (Hnm : name c = nm) by now rewrite Hc.
  assert (Hu : uri c = u) by now rewrite Hc.
  rewrite Forall_forall in Hall.
  assert (Hall5 : Forall zero_window [win1; win2; win3; win4; win5]).
  { apply Forall_forall. intros x Hx. apply Hall. simpl in *. tauto. }
  assert (Hwin6 : zero_window win6).
  { apply Hall. simpl. tauto. }
  split.
  - destruct (run_zero_windows_below interval [win1; win2; win3; win4; win5]
                [] c w Hi Hfc Hrun Hall5) as (w5 & Hr & Hd5 & Ht5).
    { lia. } { rewrite Hd. simpl. lia. }
    exists w5. rewrite app_nil_r in Hr. rewrite Hr. cbn [run]. rewrite Hrun.
    repeat split; [exact Ht5|]. rewrite <- Hnm, Hd5, Hd. reflexivity.
  - destruct (run_zero_windows_below interval [win1; win2; win3; win4; win5]
                [win6] c w Hi Hfc Hrun Hall5) as (w5 & Hr & Hd5 & Ht5).
    { lia. } { rewrite Hd. simpl. lia. }
    rewrite Hd in Hd5. cbn [List.length] in Hd5.
    destruct (run_zero_window interval win6 [] c w5 Hi Hfc Hrun Hwin6)
      as (w6 & Hstep & Hreach & _).
    { rewrite Hd5. unfold Int.in_range, Int.INT_MIN, Int.INT_MAX. lia. }
    destruct Hreach as [Hd6 Ht6]; [rewrite Hd5; lia|].
    exists w6. cbn [app] in Hr. rewrite Hr, Hstep. cbn [run]. rewrite Hrun.
    repeat split.
    + rewrite Ht6, Ht5, Hu. reflexivity.
    + now rewrite <- Hnm.
Qed.

(** Six windows without a callback, sampled every second. *)
Lemma first_reconnect_in_sixth_window_witness :
  let zw := mkWindow [] false true false in
  let w0 := mkWorld [] [] [] in
  let c := fst (supervisor_started "cam0" "rtsp://a" true true w0) in
  let w := snd (supervisor_started "cam0" "rtsp://a" true true w0) in
  1 <> 0 /\
  Forall zero_window [zw; zw; zw; zw; zw; zw] /\
  (exists w5,
     run 1 [zw; zw; zw; zw; zw] c w = Some (Looping, c, w5) /\
     set_states (trace w5) = set_states (trace w) /\
     downtime "cam0" w5 = 4) /\
  (exists w6,
     run 1 [zw; zw; zw; zw; zw; zw] c w = Some (Looping, c, w6) /\
     set_states (trace w6) =
       (set_states (trace w) ++
        [SetState "rtsp://a" GST_STATE_NULL (stop_ok zw);
         SetState "rtsp://a" GST_STATE_PLAYING (start_ok zw)])%list /\
     downtime "cam0" w6 = 0).
Proof.
  intros zw w0 c w.
  assert (H1 : 1 <> 0) by lia.
  assert (H2 : Forall zero_window [zw; zw; zw; zw; zw; zw])
    by (repeat constructor).
  split; [exact H1|]. split; [exact H2|].
  exact (first_reconnect_in_sixth_window "cam0" "rtsp://a" true true 1 w0
           zw zw zw zw zw zw H1 H2).
Defined.

(** C2 as stated fails: after five windows without a frame the started
    camera has seen no state change from its loop and its counter is 4. *)
Lemma no_reconnect_after_five_windows :
  let zw := mkWindow [] false true true in
  let w0 := mkWorld [] [] [] in
  let c := fst (supervisor_started "cam0" "rtsp://a" true true w0) in
  let w := snd (supervisor_started "cam0" "rtsp://a" true true w0) in
  exists w5,
    run 1 [zw; zw; zw; zw; zw] c w = Some (Looping, c, w5) /\
    set_states (trace w5) = set_states (trace w) /\
    downtime "cam0" w5 = 4 /\
    ~ (set_states (trace w5) =
         (set_states (trace w) ++
          [SetState "rtsp://a" GST_STATE_NULL true;
           SetState "rtsp://a" GST_STATE_PLAYING true])%list /\
       downtime "cam0" w5 = 0).
Proof.
  intros zw w0 c w. eexists. split; [vm_compute; reflexivity|].
  split; [reflexivity|]. split; [reflexivity|].
  intros [_ H]. vm_compute in H. discriminate.
Qed.

(** ** Invariants of the running system *)

Lemma downtime_stall_policy_other k fps stop_ok start_ok c w :
  k <> name c ->
  downtime k (stall_policy fps stop_ok start_ok c w) = downtime k w.
Proof.
  intros Hne. unfold stall_policy. destruct (fps =? 0).
  - match goal with |- context [if ?b then _ else _] => destruct b end.
    + rewrite downtime_set_other by exact Hne.
      rewrite downtime_start, downtime_stop, downtime_emit.
      now apply downtime_set_other.
    + now apply downtime_set_other.
  - now apply downtime_set_other.
Qed.

(** The counter after a pass, by the fps of the pass. *)
Lemma downtime_stall_policy fps stop_ok start_ok c w :
  Int.in_range (downtime (name c) w + 1) ->
  downtime (name c) (stall_policy fps stop_ok start_ok c w) =
  if fps =? 0
  then if downtime (name c) w + 1 >=? 5 then 0 else downtime (name c) w + 1
  else 0.
Proof.
  intros Hr. destruct (Z.eqb_spec fps 0) as [->|Hne].
  - destruct (stall_policy_zero stop_ok start_ok c w Hr) as [Hge Hlt].
    destruct (Z.geb_spec (downtime (name c) w + 1) 5).
    + now apply Hge.
    + now apply Hlt.
  - now apply stall_policy_nonzero.
Qed.

Lemma counters_emit e w : counters_in_range w -> counters_in_range (emit e w).
Proof. exact (fun H => H). Qed.

Lemma counters_start ok c w :
  counters_in_range w -> counters_in_range (start ok c w).
Proof. intros H k. rewrite downtime_start. apply H. Qed.

Lemma counters_stop ok c w :
  counters_in_range w -> counters_in_range (stop ok c w).
Proof. intros H k. rewrite downtime_stop. apply H. Qed.

Lemma counters_set k v w :
  -1 <= v <= 4 -> counters_in_range w -> counters_in_range (set_downtime k v w).
Proof.
  intros Hv H k2. destruct (string_dec k2 k) as [->|Hne].
  - now rewrite downtime_set_same.
  - rewrite downtime_set_other by exact Hne. apply H.
Qed.

Lemma counters_stall_policy fps stop_ok start_ok c w :
  counters_in_range w ->
  counters_in_range (stall_policy fps stop_ok start_ok c w).
Proof.
  intros H k. destruct (string_dec k (name c)) as [->|Hne].
  - rewrite downtime_stall_policy.
    + specialize (H (name c)). destruct (fps =? 0); [|lia].
      destruct (Z.geb_spec (downtime (name c) w + 1) 5); lia.
    + specialize (H (name c)).
      unfold Int.in_range, Int.INT_MIN, Int.INT_MAX. lia.
  - rewrite downtime_stall_policy_other by exact Hne. apply H.
Qed.

Lemma Camera_new_world nm u made w :
  fps_map (snd (Camera_new nm u made w)) = fps_map w /\
  downtime nm (snd (Camera_new nm u made w)) = -1 /\
  (counters_in_range w -> counters_in_range (snd (Camera_new nm u made w))).
Proof.
  unfold Camera_new.
  destruct made; cbn [snd]; (split; [reflexivity|split]);
    try apply downtime_set_same;
    intros Hc; apply counters_emit, counters_set; try lia;
    apply counters_emit; exact Hc.
Qed.

Lemma on_new_sample_world pulled c w :
  fps_map (snd (on_new_sample pulled c w)) = fps_map w /\
  downtime_map (snd (on_new_sample pulled c w)) = downtime_map w.
Proof. unfold on_new_sample. now destruct pulled. Qed.

(** What one operation does to the two maps. *)
Lemma exec_maps interval o s s' :
  exec interval o s = Some s' ->
  (fps_map (world s') = fps_map (world s) \/
   exists k v, fps_map (world s') = StdMap.set k v (fps_map (world s))) /\
  (counters_in_range (world s) -> counters_in_range (world s')).
Proof.
  unfold exec. destruct o as [nm u made|i ok|i ok|i st|i pulled|i so sa|ts].
  - destruct (Camera_new nm u made (world s)) as [c w] eqn:E.
    intros [= <-]. cbn [world].
    destruct (Camera_new_world nm u made (world s)) as (H1 & _ & H3).
    rewrite E in H1, H3. cbn [snd] in H1, H3. auto.
  - destruct (nth_error (cameras s) i) as [c|]; [|discriminate].
    intros [= <-]. cbn [world]. rewrite fps_map_start.
    split; [now left|apply counters_start].
  - destruct (nth_error (cameras s) i) as [c|]; [|discriminate].
    intros [= <-]. cbn [world]. rewrite fps_map_stop.
    split; [now left|apply counters_stop].
  - destruct (nth_error (cameras s) i) as [c|]; [|discriminate].
    intros [= <-]. cbn [world]. auto.
  - destruct (nth_error (cameras s) i) as [c|]; [|discriminate].
    destruct (on_new_sample pulled c (world s)) as [c1 w1] eqn:E.
    intros [= <-]. cbn [world].
    destruct (on_new_sample_world pulled c (world s)) as [H1 H2].
    rewrite E in H1, H2. cbn [snd] in H1, H2.
    split; [now left|]. intros H k. unfold downtime. rewrite H2. apply H.
  - destruct (nth_error (cameras s) i) as [c|]; [|discriminate].
    destruct (running c).
    + unfold run_iteration.
      destruct (Int.div (frame_count c) interval) as [fps|]; [|discriminate].
      intros [= <-]. cbn [world]. rewrite fps_map_stall_policy. split.
      * right. now exists (name c), fps.
      * intros H. now apply counters_stall_policy.
    + intros [= <-]. cbn [world]. auto.
  - intros [= <-]. cbn [world]. split; [now left|apply counters_emit].
Qed.

Lemma exec_invariant interval o s s' :
  exec interval o s = Some s' -> invariant s -> invariant s'.
Proof.
  intros E [Ho Hc]. destruct (exec_maps interval o s s' E) as [Hf Hd].
  split; [|now apply Hd].
  destruct Hf as [->|(k & v & ->)]; [exact Ho|now apply ordered_set].
Qed.

Lemma exec_all_invariant interval ops s s' :
  exec_all interval ops s = Some s' -> invariant s -> invariant s'.
Proof.
  revert s. induction ops as [|o ops IH]; intros s E Hi.
  - injection E as <-. exact Hi.
  - cbn [exec_all] in E. destruct (exec interval o s) as [s1|] eqn:E1;
      [|discriminate].
    eapply IH; [exact E|]. eapply exec_invariant; eassumption.
Qed.

Lemma initial_invariant : invariant initial.
Proof.
  split.
  - constructor.
  - intros k. unfold downtime, StdMap.get. simpl. lia.
Qed.

Lemma reachable_invariant interval s : reachable interval s -> invariant s.
Proof.
  intros [ops E]. eapply exec_all_invariant; [exact E|apply initial_invariant].
Qed.

Lemma exec_all_app interval ops1 ops2 s :
  exec_all interval (ops1 ++ ops2)%list s =
  match exec_all interval ops1 s with
  | Some s1 => exec_all interval ops2 s1
  | None => None
  end.
Proof.
  revert s. induction ops1 as [|o ops1 IH]; intros s; [reflexivity|].
  cbn [exec_all app]. destruct (exec interval o s); [apply IH|reflexivity].
Qed.

Lemma reachable_exec_all interval ops s s' :
  reachable interval s -> exec_all interval ops s = Some s' ->
  reachable interval s'.
Proof.
  intros [ops0 E0] E. exists (ops0 ++ ops)%list.
  now rewrite exec_all_app, E0.
Qed.

Lemma reachable_exec interval o s s' :
  reachable interval s -> exec interval o s = Some s' -> reachable interval s'.
Proof.
  intros Hr E. apply (reachable_exec_all interval [o] s s' Hr).
  cbn [exec_all]. now rewrite E.
Qed.

(** A pass of a live camera's loop, in the system. *)
Lemma exec_run_live interval i stop_ok start_ok s s' c :
  nth_error (cameras s) i = Some c ->
  running c = true ->
  exec interval (OpRun i stop_ok start_ok) s = Some s' ->
  exists fps,
    Int.div (frame_count c) interval = Some fps /\
    world s' = stall_policy fps stop_ok start_ok (with_frame_count 0 c)
                 (set_fps (name c) fps (world s)).
Proof.
  intros Hn Hrun. unfold exec. rewrite Hn, Hrun. unfold run_iteration.
  destruct (Int.div (frame_count c) interval) as [fps|]; [|discriminate].
  intros [= <-]. now exists fps.
Qed.

(** C4, as the code has it: between operations every downtime counter lies
    in -1..4.  The constructor sets the counter to -1, so it is negative
    until the camera's first pass.  A pass of a live loop leaves it
    non-negative: a pass whose fps is 0 (fewer frames than one per second of
    the interval) adds one, or sets it to 0 when the sum reaches 5; a pass
    whose fps is not 0 sets it to 0. *)
Theorem downtime_counter_lifetime interval s :
  reachable interval s ->
  (forall k, -1 <= downtime k (world s) <= 4) /\
  (forall nm u made s',
     exec interval (OpNew nm u made) s = Some s' ->
     downtime nm (world s') = -1) /\
  (forall i stop_ok start_ok c s',
     nth_error (cameras s) i = Some c ->
     running c = true ->
     exec interval (OpRun i stop_ok start_ok) s = Some s' ->
     0 <= downtime (name c) (world s') <= 4 /\
     exists fps,
       Int.div (frame_count c) interval = Some fps /\
       downtime (name c) (world s') =
         if fps =? 0
         then if downtime (name c) (world s) + 1 >=? 5
              then 0 else downtime (name c) (world s) + 1
         else 0).
Proof.
  intros Hr. destruct (reachable_invariant interval s Hr) as [_ Hc].
  split; [exact Hc|]. split.
  - intros nm u made s'. unfold exec.
    destruct (Camera_new nm u made (world s)) as [c w] eqn:E.
    intros [= <-]. cbn [world].
    change w with (snd (c, w)). rewrite <- E. apply Camera_new_world.
  - intros i stop_ok start_ok c s' Hn Hrun E.
    destruct (exec_run_live interval i stop_ok start_ok s s' c Hn Hrun E)
      as (fps & Hdiv & Hw).
    assert (Hd : downtime (name c) (world s') =
                 if fps =? 0
                 then if downtime (name c) (world s) + 1 >=? 5
                      then 0 else downtime (name c) (world s) + 1
                 else 0).
    { rewrite Hw.
      apply (downtime_stall_policy fps stop_ok start_ok (with_frame_count 0 c)
               (set_fps (name c) fps (world s))).
      rewrite downtime_set_fps. cbn [name with_frame_count].
      specialize (Hc (name c)).
      unfold Int.in_range, Int.INT_MIN, Int.INT_MAX. lia. }
    split.
    + rewrite Hd. specialize (Hc (name c)). destruct (fps =? 0); [|lia].
      destruct (Z.geb_spec (downtime (name c) (world s) + 1) 5); lia.
    + exists fps. split; [exact Hdiv|exact Hd].
Qed.

(** The system right after the first camera is constructed. *)
Lemma downtime_counter_lifetime_witness :
  let c := fst (Camera_new "cam0" "rtsp://a" true (world initial)) in
  let w := snd (Camera_new "cam0" "rtsp://a" true (world initial)) in
  let s := mkSystem w [c] in
  reachable 1 s /\
  (forall k, -1 <= downtime k (world s) <= 4) /\
  (forall i stop_ok start_ok c s',
     nth_error (cameras s) i = Some c ->
     running c = true ->
     exec 1 (OpRun i stop_ok start_ok) s = Some s' ->
     0 <= downtime (name c) (world s') <= 4).
Proof.
  intros c w s.
  assert (Hr : reachable 1 s).
  { exists [OpNew "cam0" "rtsp://a" true]. reflexivity. }
  split; [exact Hr|].
  destruct (downtime_counter_lifetime 1 s Hr) as (H1 & _ & H3).
  split; [exact H1|].
  intros i stop_ok start_ok c1 s' Hn Hrun E.
  exact (proj1 (H3 i stop_ok start_ok c1 s' Hn Hrun E)).
Defined.

(** C4 as stated fails twice.  The counter of a constructed camera is -1,
    which is negative.  And with a 2 second interval a window that delivers
    one frame has fps 0: the counter goes from 2 to 3 instead of to 0. *)
Lemma downtime_counter_negative_and_not_reset :
  (exists s,
     exec_all 2 [OpNew "cam0" "rtsp://a" true] initial = Some s /\
     downtime "cam0" (world s) = -1 /\
     ~ 0 <= downtime "cam0" (world s)) /\
  (exists s1 c s2,
     exec_all 2 [OpNew "cam0" "rtsp://a" true;
                 OpRun 0 true true; OpRun 0 true true; OpRun 0 true true;
                 OpNewSample 0 true] initial = Some s1 /\
     nth_error (cameras s1) 0 = Some c /\
     frame_count c = 1 /\
     downtime "cam0" (world s1) = 2 /\
     exec 2 (OpRun 0 true true) s1 = Some s2 /\
     downtime "cam0" (world s2) = 3 /\
     downtime "cam0" (world s2) <> 0).
Proof.
  split.
  - eexists. split; [vm_compute; reflexivity|]. split; [reflexivity|].
    vm_compute. intros H. now apply H.
  - eexists _, _, _. split; [vm_compute; reflexivity|].
    split; [reflexivity|]. split; [reflexivity|]. split; [reflexivity|].
    split; [vm_compute; reflexivity|]. split; [reflexivity|].
    vm_compute. discriminate.
Qed.

(** ** The registry *)

Lemma count_key_le_1 {V} k (m : StdMap.t V) :
  StdMap.ordered m -> (StdMap.count_key k m <= 1)%nat.
Proof.
  unfold StdMap.ordered.
  induction m as [|[k' v'] rest IH]; simpl; intros Hs; [auto|].
  inversion Hs as [|? ? Hrest Hall]; subst. rewrite count_key_cons.
  destruct (String.eqb_spec k k') as [->|_].
  - rewrite count_key_above by exact Hall. auto.
  - now apply IH.
Qed.

Lemma count_key_set_mono {V} k k2 (v : V) m :
  StdMap.ordered m ->
  (StdMap.count_key k2 m <= StdMap.count_key k2 (StdMap.set k v m))%nat.
Proof.
  intros Ho. destruct (string_dec k2 k) as [->|Hne].
  - rewrite count_key_set_same by exact Ho. now apply count_key_le_1.
  - rewrite count_key_set_other by exact Hne. auto.
Qed.

Lemma exec_count_key interval o s s' k :
  invariant s -> exec interval o s = Some s' ->
  (StdMap.count_key k (fps_map (world s))
   <= StdMap.count_key k (fps_map (world s')))%nat.
Proof.
  intros [Ho _] E. destruct (exec_maps interval o s s' E) as [Hf _].
  destruct Hf as [->|(k' & v & ->)]; [auto|now apply count_key_set_mono].
Qed.

Lemma exec_all_count_key interval ops s s' k :
  invariant s -> exec_all interval ops s = Some s' ->
  (StdMap.count_key k (fps_map (world s))
   <= StdMap.count_key k (fps_map (world s')))%nat.
Proof.
  revert s. induction ops as [|o ops IH]; intros s Hi E.
  - injection E as <-. auto.
  - cbn [exec_all] in E.
    destruct (exec interval o s) as [s1|] eqn:E1; [|discriminate].
    etransitivity; [eapply exec_count_key; eassumption|].
    apply IH; [|exact E]. eapply exec_invariant; eassumption.
Qed.

(** C5: in every reachable state the registry holds at most one entry per
    identifier; no sequence of operations lowers the number of entries of an
    identifier; and from the first pass of a camera's loop on, whatever
    operations follow, the registry holds exactly one entry under the
    camera's name. *)
Theorem registry_entries_unique_and_kept interval s :
  reachable interval s ->
  (forall k, (StdMap.count_key k (fps_map (world s)) <= 1)%nat) /\
  (forall ops s' k,
     exec_all interval ops s = Some s' ->
     (StdMap.count_key k (fps_map (world s))
      <= StdMap.count_key k (fps_map (world s')))%nat) /\
  (forall i stop_ok start_ok c s1 ops s2,
     nth_error (cameras s) i = Some c ->
     running c = true ->
     exec interval (OpRun i stop_ok start_ok) s = Some s1 ->
     exec_all interval ops s1 = Some s2 ->
     StdMap.count_key (name c) (fps_map (world s2)) = 1%nat).
Proof.
  intros Hr. pose proof (reachable_invariant interval s Hr) as Hi.
  split; [|split].
  - intros k. apply count_key_le_1, Hi.
  - intros ops s' k E. now apply (exec_all_count_key interval ops s s' k Hi).
  - intros i stop_ok start_ok c s1 ops s2 Hn Hrun E1 E2.
    pose proof (reachable_exec interval _ s s1 Hr E1) as Hr1.
    pose proof (reachable_invariant interval s1 Hr1) as Hi1.
    pose proof (reachable_exec_all interval ops s1 s2 Hr1 E2) as Hr2.
    pose proof (reachable_invariant interval s2 Hr2) as Hi2.
    destruct (exec_run_live interval i stop_ok start_ok s s1 c Hn Hrun E1)
      as (fps & _ & Hw).
    assert (H1 : StdMap.count_key (name c) (fps_map (world s1)) = 1%nat).
    { rewrite Hw, fps_map_stall_policy. cbn [fps_map set_fps].
      apply count_key_set_same, Hi. }
    pose proof (exec_all_count_key interval ops s1 s2 (name c) Hi1 E2) as Hle.
    pose proof (count_key_le_1 (name c) (fps_map (world s2)) (proj1 Hi2)).
    lia.
Qed.

(** One camera, before its first pass. *)
Lemma registry_entries_unique_and_kept_witness :
  let c := fst (Camera_new "cam0" "rtsp://a" true (world initial)) in
  let w := snd (Camera_new "cam0" "rtsp://a" true (world initial)) in
  let s := mkSystem w [c] in
  reachable 1 s /\
  (forall k, (StdMap.count_key k (fps_map (world s)) <= 1)%nat) /\
  (forall s1 ops s2,
     exec 1 (OpRun 0 true true) s = Some s1 ->
     exec_all 1 ops s1 = Some s2 ->
     StdMap.count_key "cam0" (fps_map (world s2)) = 1%nat).
Proof.
  intros c w s.
  assert (Hr : reachable 1 s).
  { exists [OpNew "cam0" "rtsp://a" true]. reflexivity. }
  split; [exact Hr|].
  destruct (registry_entries_unique_and_kept 1 s Hr) as (H1 & _ & H3).
  split; [exact H1|].
  intros s1 ops s2 E1 E2.
  exact (H3 0%nat true true c s1 ops s2 eq_refl eq_refl E1 E2).
Defined.

(** ** The report line *)

Lemma append_assoc (a b c : string) :
  ((a ++ b) ++ c)%string = (a ++ (b ++ c))%string.
Proof. induction a as [|x a IH]; simpl; [reflexivity|now rewrite IH]. Qed.

Lemma append_nil_r (a : string) : (a ++ "")%string = a.
Proof. induction a as [|x a IH]; simpl; [reflexivity|now rewrite IH]. Qed.

Lemma append_length (a b : string) :
  String.length (a ++ b) = (String.length a + String.length b)%nat.
Proof. induction a as [|x a IH]; simpl; [reflexivity|now rewrite IH]. Qed.

(** What the loop body appends for one entry, comma apart. *)
Lemma print_entry_text out id fps :
  (if fps <? 5
   then (out ++ ESC ++ "[1;31m" ++ id ++ ": " ++ to_string fps
             ++ " FPS" ++ ESC ++ "[0m")%string
   else (out ++ id ++ ": " ++ to_string fps ++ " FPS")%string)
  = (out ++ render_entry (id, fps))%string.
Proof.
  unfold render_entry, warning, item. cbn [fst snd].
  destruct (fps <? 5); [|reflexivity].
  now rewrite !append_assoc.
Qed.

(** The loop of [print_fps] writes the entries in list order, separated by
    commas. *)
Lemma print_entries_concat entries count current out :
  count = (current + List.length entries)%nat ->
  print_entries count current entries out =
  (out ++ String.concat ", " (List.map render_entry entries))%string.
Proof.
  revert current out.
  induction entries as [|[id fps] rest IH]; intros current out Hc.
  - cbn [print_entries List.map String.concat]. now rewrite append_nil_r.
  - cbn [print_entries]. rewrite print_entry_text.
    cbn [List.length] in Hc.
    destruct rest as [|e2 rest'].
    + assert (Hlt : (S current <? count)%nat = false).
      { apply Nat.ltb_ge. cbn [List.length] in Hc. lia. }
      rewrite Hlt. reflexivity.
    + assert (Hlt : (S current <? count)%nat = true).
      { apply Nat.ltb_lt. cbn [List.length] in Hc. lia. }
      rewrite Hlt. rewrite IH by (cbn [List.length] in *; lia).
      cbn [List.map String.concat]. now rewrite !append_assoc.
Qed.

Lemma print_fps_iteration_line timestamp w :
  print_fps_iteration timestamp w =
  emit (Cout (report_line timestamp (fps_map w))) w.
Proof.
  unfold print_fps_iteration, report_line.
  rewrite print_entries_concat by reflexivity.
  now rewrite !append_assoc.
Qed.

Lemma warning_differs text : warning text <> text.
Proof.
  intros H. apply (f_equal String.length) in H. unfold warning in H.
  rewrite !append_length in H. simpl in H. lia.
Qed.

(** C6: in every reachable state, one pass of the reporter writes one line:
    the timestamp in brackets, then the entries of the registry as
    ["<id>: <fps> FPS"] separated by [", "], in strictly ascending order of
    the identifiers; two states whose registries hold the same values print
    the same line, however the writes were ordered; and an entry is wrapped
    in the warning colour exactly when its fps is below 5. *)
Theorem print_fps_renders_sorted_line interval s timestamp :
  reachable interval s ->
  trace (print_fps_iteration timestamp (world s)) =
    (trace (world s) ++
     [Cout (report_line timestamp (fps_map (world s)))])%list /\
  StronglySorted StdMap.slt (StdMap.keys (fps_map (world s))) /\
  (forall s2,
     reachable interval s2 ->
     (forall k, StdMap.find k (fps_map (world s2))
                = StdMap.find k (fps_map (world s))) ->
     fps_map (world s2) = fps_map (world s) /\
     List.last (trace (print_fps_iteration timestamp (world s2))) (Cout "")
     = List.last (trace (print_fps_iteration timestamp (world s))) (Cout "")) /\
  (forall id fps,
     (fps < 5 -> render_entry (id, fps) = warning (item id fps)) /\
     (5 <= fps -> render_entry (id, fps) = item id fps) /\
     warning (item id fps) <> item id fps).
Proof.
  intros Hr. destruct (reachable_invariant interval s Hr) as [Ho _].
  split; [|split; [|split]].
  - now rewrite print_fps_iteration_line.
  - exact Ho.
  - intros s2 Hr2 Hext.
    destruct (reachable_invariant interval s2 Hr2) as [Ho2 _].
    pose proof (ordered_ext _ _ Ho2 Ho Hext) as Heq.
    split; [exact Heq|].
    rewrite !print_fps_iteration_line. cbn [emit trace].
    now rewrite !last_last, Heq.
  - intros id fps. unfold render_entry. cbn [fst snd].
    split; [|split].
    + intros H. apply Z.ltb_lt in H. now rewrite H.
    + intros H. apply Z.ltb_ge in H. now rewrite H.
    + apply warning_differs.
Qed.

(** Three cameras written to the registry in the order camC, camA, camB. *)
Lemma print_fps_renders_sorted_line_witness :
  let ops := [OpNew "camC" "rtsp://c" true; OpNew "camA" "rtsp://a" true;
              OpNew "camB" "rtsp://b" true;
              OpNewSample 0 true; OpNewSample 0 true; OpNewSample 1 true;
              OpRun 0 true true; OpRun 1 true true; OpRun 2 true true] in
  let s := match exec_all 1 ops initial with
           | Some s => s
           | None => initial
           end in
  reachable 1 s /\
  StdMap.keys (fps_map (world s)) = ["camA"; "camB"; "camC"]%string /\
  trace (print_fps_iteration "03:11:2026 10:00:00" (world s)) =
    (trace (world s) ++
     [Cout (report_line "03:11:2026 10:00:00" (fps_map (world s)))])%list /\
  StronglySorted StdMap.slt (StdMap.keys (fps_map (world s))).
Proof.
  intros ops s.
  assert (Hr : reachable 1 s) by (exists ops; reflexivity).
  split; [exact Hr|]. split; [reflexivity|].
  destruct (print_fps_renders_sorted_line 1 s "03:11:2026 10:00:00" Hr)
    as (H1 & H2 & _).
  split; [exact H1|exact H2].
Defined.

(** ** Shutdown *)

Lemma trace_stop ok c w :
  exists l, trace (stop ok c w) = (trace w ++ l)%list /\
            forall t, ~ In (Join t) l.
Proof.
  unfold stop. destruct ok; eexists; (split;
    [cbn [emit trace]; rewrite <- !app_assoc; reflexivity|]);
    intros t [H|[H|[H|[]]]]; discriminate.
Qed.

Lemma cleanup_spec gst cams w :
  Forall (fun c => running c = false) (fst (cleanup gst cams w)) /\
  List.length (fst (cleanup gst cams w)) = List.length cams /\
  forall t, In (Join t) (trace (snd (cleanup gst cams w))) ->
            In (Join t) (trace w).
Proof.
  revert w. induction cams as [|c rest IH]; intros w.
  - cbn. auto.
  - cbn [cleanup].
    set (c' := set_running false c).
    set (w1 := Camera_delete _ c' (stop _ c' w)).
    destruct (cleanup gst rest w1) as [rest' w2] eqn:E.
    destruct (IH w1) as (Hf & Hl & Hj). rewrite E in Hf, Hl, Hj.
    cbn [fst snd] in *. split; [|split].
    + constructor; [reflexivity|exact Hf].
    + cbn [List.length]. now rewrite Hl.
    + intros t Ht. apply Hj in Ht. subst w1. unfold Camera_delete in Ht.
      cbn [emit trace] in Ht.
      apply in_app_or in Ht. destruct Ht as [Ht|[Ht|[]]]; [|discriminate].
      apply in_app_or in Ht. destruct Ht as [Ht|[Ht|[]]]; [|discriminate].
      destruct (trace_stop (null_ok gst (name c')) c' w) as (l & Hl' & Hn).
      rewrite Hl' in Ht. apply in_app_or in Ht.
      destruct Ht as [Ht|Ht]; [exact Ht|]. now apply Hn in Ht.
Qed.

(** C7, on the code: [print_fps] is still looping after any number of
    passes, so the join at the end of [main] never returns and [main] never
    returns; the cleanup loop clears [running] on every camera but joins no
    thread. *)
Theorem print_fps_never_returns timestamps w :
  fst (print_fps timestamps w) = Looping /\
  (forall w', main_finish (fst (print_fps timestamps w)) w' = None) /\
  (forall gst cams,
     Forall (fun c => running c = false) (fst (cleanup gst cams w)) /\
     forall t, In (Join t) (trace (snd (cleanup gst cams w))) ->
               In (Join t) (trace w)).
Proof.
  assert (H : fst (print_fps timestamps w) = Looping).
  { revert w. induction timestamps as [|ts rest IH]; intros w.
    - reflexivity.
    - cbn [print_fps]. apply IH. }
  split; [exact H|]. split.
  - intros w'. now rewrite H.
  - intros gst cams. destruct (cleanup_spec gst cams w) as (H1 & _ & H3).
    now split.
Qed.

(** ** Start-up: command line and stream list *)

Lemma launch_length gst camera_uris cams w :
  List.length (fst (launch gst camera_uris cams w)) =
  (List.length cams + List.length camera_uris)%nat.
Proof.
  revert cams w. induction camera_uris as [|[nm u] rest IH]; intros cams w.
  - cbn. lia.
  - cbn [launch].
    destruct (Camera_new nm u (factory_ok gst nm) w) as [c w1].
    rewrite IH, length_app. cbn [List.length]. lia.
Qed.

Lemma launch_names gst camera_uris cams w :
  List.map name (fst (launch gst camera_uris cams w)) =
  (List.map name cams ++ StdMap.keys camera_uris)%list.
Proof.
  revert cams w. induction camera_uris as [|[nm u] rest IH]; intros cams w.
  - cbn. now rewrite app_nil_r.
  - cbn [launch].
    destruct (Camera_new nm u (factory_ok gst nm) w) as [c w1] eqn:E.
    assert (Hn : name c = nm).
    { change c with (fst (c, w1)). rewrite <- E. unfold Camera_new.
      now destruct (factory_ok gst nm). }
    rewrite IH, map_app. cbn [List.map StdMap.keys fst]. rewrite Hn.
    now rewrite <- app_assoc.
Qed.

Lemma main_startup_omitted gst argv file w :
  (List.length argv < 2)%nat ->
  main_startup gst argv file w = (Returned 1, emit (usage argv) w).
Proof.
  intros H. unfold main_startup.
  destruct (Z.ltb_spec (Z.of_nat (List.length argv)) 2); [reflexivity|lia].
Qed.

Lemma main_startup_throw gst argv file w e :
  (2 <= List.length argv)%nat ->
  stoi (List.nth 1 argv ""%string) = Throw e ->
  main_startup gst argv file w = (Terminated e, w).
Proof.
  intros H Hs. unfold main_startup.
  destruct (Z.ltb_spec (Z.of_nat (List.length argv)) 2); [lia|].
  now rewrite Hs.
Qed.

Lemma main_startup_ok gst argv file w interval :
  (2 <= List.length argv)%nat ->
  stoi (List.nth 1 argv ""%string) = Ok interval ->
  main_startup gst argv file w =
  let cw := read_camera_uris "../cameras.txt" file w in
  let lw := launch gst (fst cw) [] (snd cw) in
  (Launched interval (fst lw), emit (Spawn FpsThread) (snd lw)).
Proof.
  intros H Hs. unfold main_startup.
  destruct (Z.ltb_spec (Z.of_nat (List.length argv)) 2); [lia|].
  rewrite Hs. destruct (read_camera_uris "../cameras.txt" file w) as [m w1].
  cbn [fst snd]. now destruct (launch gst m [] w1).
Qed.

(** C8, as the code has it: when the stream list cannot be opened
    [read_camera_uris] logs the failure and returns an empty map, and [main]
    goes on exactly as with an empty list: no camera, the reporter thread
    created.  Whatever the GStreamer calls return for a stream, [main]
    creates one supervisor per configured stream and none of them ends the
    process. *)
Theorem unreadable_list_is_not_fatal gst argv w interval :
  (2 <= List.length argv)%nat ->
  stoi (List.nth 1 argv ""%string) = Ok interval ->
  main_startup gst argv None w =
    (Launched interval [],
     emit (Spawn FpsThread)
       (emit (Cerr "Could not open the file: ../cameras.txt") w)) /\
  fst (main_startup gst argv None w) = fst (main_startup gst argv (Some []) w) /\
  (forall lines,
     exists cams,
       fst (main_startup gst argv (Some lines) w) = Launched interval cams /\
       List.map name cams = StdMap.keys (read_lines lines 0 StdMap.empty)).
Proof.
  intros H Hs. split; [|split].
  - now rewrite (main_startup_ok gst argv None w interval H Hs).
  - now rewrite !(main_startup_ok gst argv _ w interval H Hs).
  - intros lines. rewrite (main_startup_ok gst argv _ w interval H Hs).
    cbn [read_camera_uris fst snd]. eexists. split; [reflexivity|].
    now rewrite launch_names.
Qed.

(** A one second interval, the list file missing. *)
Lemma unreadable_list_is_not_fatal_witness :
  let gst := mkGst (fun _ => true) (fun _ => false) (fun _ => true) in
  let argv := ["./check_fps"; "1"]%string in
  let w := mkWorld [] [] [] in
  (2 <= List.length argv)%nat /\
  stoi (List.nth 1 argv ""%string) = Ok 1 /\
  main_startup gst argv None w =
    (Launched 1 [],
     emit (Spawn FpsThread)
       (emit (Cerr "Could not open the file: ../cameras.txt") w)) /\
  fst (main_startup gst argv None w) = fst (main_startup gst argv (Some []) w).
Proof.
  intros gst argv w.
  assert (H1 : (2 <= List.length argv)%nat) by (simpl; lia).
  assert (H2 : stoi (List.nth 1 argv ""%string) = Ok 1) by reflexivity.
  split; [exact H1|]. split; [exact H2|].
  destruct (unreadable_list_is_not_fatal gst argv w 1 H1 H2) as (A & B & _).
  split; [exact A|exact B].
Defined.

(** C8 as stated fails: with the list file missing the run is launched, with
    no camera, as it is for an empty list; it does not end in an exit. *)
Lemma unreadable_list_runs_without_cameras :
  let gst := mkGst (fun _ => true) (fun _ => true) (fun _ => true) in
  let argv := ["./check_fps"; "1"]%string in
  let w := mkWorld [] [] [] in
  fst (main_startup gst argv None w) = Launched 1 [] /\
  fst (main_startup gst argv None w) = fst (main_startup gst argv (Some []) w) /\
  ~ (exists code, fst (main_startup gst argv None w) = Returned code) /\
  ~ (exists e, fst (main_startup gst argv None w) = Terminated e).
Proof.
  intros gst argv w. split; [reflexivity|]. split; [reflexivity|].
  split; intros [x H]; vm_compute in H; discriminate.
Qed.

(** An event that is visibly not the usage line. *)
Ltac not_usage H := unfold usage in H; simpl in H; discriminate H.

(** C9, as the code has it: without an argument [main] writes the usage
    line and returns 1; with an argument that [std::stoi] rejects, the
    exception ends [main] with nothing written, the usage line included;
    otherwise the run is launched with the integer [std::stoi] reads from
    the front of the argument, and no usage line is written. *)
Theorem main_argument_handling gst argv file w :
  ((List.length argv < 2)%nat ->
   main_startup gst argv file w = (Returned 1, emit (usage argv) w)) /\
  (forall e,
     (2 <= List.length argv)%nat ->
     stoi (List.nth 1 argv ""%string) = Throw e ->
     main_startup gst argv file w = (Terminated e, w)) /\
  (forall interval,
     (2 <= List.length argv)%nat ->
     stoi (List.nth 1 argv ""%string) = Ok interval ->
     exists cams w',
       main_startup gst argv file w = (Launched interval cams, w') /\
       exists l, trace w' = (trace w ++ l)%list /\ ~ In (usage argv) l).
Proof.
  split; [apply main_startup_omitted|]. split.
  - intros e. apply main_startup_throw.
  - intros interval H Hs.
    rewrite (main_startup_ok gst argv file w interval H Hs).
    eexists _, _. split; [reflexivity|].
    cbn [emit trace].
    assert (Hread : exists l1,
      trace (snd (read_camera_uris "../cameras.txt" file w))
        = (trace w ++ l1)%list /\ ~ In (usage argv) l1).
    { destruct file as [lines|]; cbn [read_camera_uris snd emit trace].
      - exists []. rewrite app_nil_r. auto.
      - eexists. split; [reflexivity|]. intros [Hx|[]]. now not_usage Hx. }
    destruct Hread as (l1 & Hl1 & Hn1).
    generalize dependent (snd (read_camera_uris "../cameras.txt" file w)).
    generalize (fst (read_camera_uris "../cameras.txt" file w)).
    intros uris. generalize (@nil Camera). revert l1 Hn1.
    induction uris as [|[nm u] rest IH]; intros l1 Hn1 cams w1 Hl1.
    + cbn [launch snd]. rewrite Hl1. exists (l1 ++ [Spawn FpsThread])%list.
      rewrite app_assoc. split; [reflexivity|].
      intros Hi. apply in_app_or in Hi. destruct Hi as [Hi|[Hi|[]]];
        [auto|discriminate].
    + cbn [launch].
      destruct (Camera_new nm u (factory_ok gst nm) w1) as [c w2] eqn:E.
      set (w3 := emit (Spawn (RunThread nm)) (start (play_ok gst nm) c w2)).
      assert (H3 : exists l3, trace w3 = (trace w ++ l3)%list /\
                              ~ In (usage argv) l3).
      { assert (H2 : exists l2, trace w2 = (trace w1 ++ l2)%list /\
                                forall x, In x l2 -> x <> usage argv).
        { change w2 with (snd (c, w2)). rewrite <- E. unfold Camera_new.
          destruct (factory_ok gst nm); cbn [snd emit trace set_downtime];
            rewrite <- !app_assoc; eexists; (split; [reflexivity|]);
            intros x [<-|[<-|[]]] Hx; now not_usage Hx. }
        destruct H2 as (l2 & Hl2 & Hn2).
        assert (Hs3 : exists l, trace w3 = (trace w2 ++ l)%list /\
                                forall x, In x l -> x <> usage argv).
        { subst w3. unfold start.
          destruct (play_ok gst nm); cbn [emit trace];
            rewrite <- !app_assoc; eexists; (split; [reflexivity|]);
            intros x [<-|[<-|[<-|[<-|[]]]]] Hx; now not_usage Hx. }
        destruct Hs3 as (l & Hl & Hn).
        exists (l1 ++ l2 ++ l)%list. rewrite Hl, Hl2, Hl1.
        rewrite <- !app_assoc. split; [reflexivity|].
        intros Hi. apply in_app_or in Hi. destruct Hi as [Hi|Hi]; [auto|].
        apply in_app_or in Hi. destruct Hi as [Hi|Hi].
        - now apply (Hn2 _ Hi).
        - now apply (Hn _ Hi). }
      destruct H3 as (l3 & Hl3 & Hn3).
      exact (IH l3 Hn3 (cams ++ [c])%list w3 Hl3).
Qed.

(** No argument; and the argument 5 with a one-line list. *)
Lemma main_argument_handling_witness :
  let gst := mkGst (fun _ => true) (fun _ => true) (fun _ => true) in
  let w := mkWorld [] [] [] in
  main_startup gst ["./check_fps"%string] None w
    = (Returned 1, emit (usage ["./check_fps"%string]) w) /\
  exists cams w',
    main_startup gst ["./check_fps"; "5"]%string (Some ["rtsp://a"%string]) w
      = (Launched 5 cams, w') /\
    exists l, trace w' = (trace w ++ l)%list /\
              ~ In (usage ["./check_fps"; "5"]%string) l.
Proof.
  intros gst w. split.
  - apply (proj1 (main_argument_handling gst ["./check_fps"%string] None w)).
    simpl. lia.
  - apply (proj2 (proj2 (main_argument_handling gst
                           ["./check_fps"; "5"]%string
                           (Some ["rtsp://a"%string]) w)) 5).
    + simpl. lia.
    + reflexivity.
Defined.

(** C9 as stated fails: for the argument [abc] the run ends in the uncaught
    [std::invalid_argument] with nothing written, so without the usage line
    and without an exit status from [main]; and the argument [12abc], no
    whole number, is accepted as 12. *)
Lemma unparsable_argument_gets_no_usage :
  let gst := mkGst (fun _ => true) (fun _ => true) (fun _ => true) in
  let w := mkWorld [] [] [] in
  let argv := ["./check_fps"; "abc"]%string in
  main_startup gst argv None w = (Terminated invalid_argument, w) /\
  ~ In (usage argv) (trace (snd (main_startup gst argv None w))) /\
  ~ (exists code, fst (main_startup gst argv None w) = Returned code) /\
  fst (main_startup gst ["./check_fps"; "12abc"]%string (Some []) w)
    = Launched 12 [].
Proof.
  intros gst w argv. split; [reflexivity|]. split; [intros []|].
  split; [|reflexivity]. intros [code H]. vm_compute in H. discriminate.
Qed.

(** ** Two runs of one camera, sampled every second *)

(** Ten frames in each of three windows: every pass publishes 10, the
    counter stays at 0 and the loop changes no pipeline state. *)
Example steady_stream :
  let ten := mkWindow (List.repeat true 10) false true true in
  let cw := supervisor_started "cam0" "rtsp://a" true true (mkWorld [] [] []) in
  exists c w,
    run 1 [ten; ten; ten] (fst cw) (snd cw) = Some (Looping, c, w) /\
    StdMap.find "cam0" (fps_map w) = Some 10 /\
    downtime "cam0" w = 0 /\
    set_states (trace w) = set_states (trace (snd cw)).
Proof.
  intros ten cw. eexists _, _. split; [vm_compute; reflexivity|].
  repeat split.
Qed.

(** Four windows without a frame, then one with three frames: no reconnect,
    and the counter is back at 0. *)
Example four_stalls_then_frames :
  let zw := mkWindow [] false true true in
  let three := mkWindow [true; true; true] false true true in
  let cw := supervisor_started "cam0" "rtsp://a" true true (mkWorld [] [] []) in
  exists c w4 w5,
    run 1 [zw; zw; zw; zw] (fst cw) (snd cw) = Some (Looping, c, w4) /\
    downtime "cam0" w4 = 3 /\
    run 1 [zw; zw; zw; zw; three] (fst cw) (snd cw) = Some (Looping, c, w5) /\
    StdMap.find "cam0" (fps_map w5) = Some 3 /\
    downtime "cam0" w5 = 0 /\
    set_states (trace w5) = set_states (trace (snd cw)).
Proof.
  intros zw three cw. eexists _, _, _.
  split; [vm_compute; reflexivity|]. split; [reflexivity|].
  split; [vm_compute; reflexivity|]. repeat split.
Qed.

(** A stop request during a window: the pass still runs, then the loop
    exits. *)
Example stop_request_ends_loop :
  let last := mkWindow [true; true] true true true in
  let zw := mkWindow [] false true true in
  let cw := supervisor_started "cam0" "rtsp://a" true true (mkWorld [] [] []) in
  exists c w,
    run 1 [last; zw; zw] (fst cw) (snd cw) = Some (Exited, c, w) /\
    running c = false /\
    StdMap.find "cam0" (fps_map w) = Some 2.
Proof.
  intros last zw cw. eexists _, _. split; [vm_compute; reflexivity|].
  repeat split.
Qed.

(** * Further properties of the program *)

(** ** Which operation touches which entry *)

Lemma downtime_Camera_new_other k nm u made w :
  k <> nm -> downtime k (snd (Camera_new nm u made w)) = downtime k w.
Proof.
  intros Hne. unfold Camera_new.
  destruct made; cbn [snd]; rewrite downtime_emit;
    now rewrite downtime_set_other.
Qed.

(** ** How the loop of [Camera::run] ends *)

Lemma run_iteration_positive interval stop_ok start_ok c w :
  0 < interval ->
  exists fps,
    run_iteration interval stop_ok start_ok c w =
    Some (with_frame_count 0 c,
          stall_policy fps stop_ok start_ok (with_frame_count 0 c)
            (set_fps (name c) fps w)).
Proof.
  intros Hi. destruct (Int.div (frame_count c) interval) as [fps|] eqn:E.
  - exists fps. now apply run_iteration_some.
  - exfalso. revert E. apply Int_div_defined. lia.
Qed.

Lemma run_stopped interval ws c w :
  running c = false -> run interval ws c w = Some (Exited, c, w).
Proof. intros H. destruct ws; cbn [run]; now rewrite H. Qed.

(** With a positive interval the loop never faults, and it has exited after
    the windows given exactly when [main] cleared [running] during one of
    them; the camera keeps its name. *)
Theorem run_exits_iff_stop_requested interval ws c w :
  0 < interval ->
  running c = true ->
  exists c' w',
    run interval ws c w =
      Some (if existsb stop_request ws then Exited else Looping, c', w') /\
    running c' = negb (existsb stop_request ws) /\
    name c' = name c.
Proof.
  intros Hi. revert c w.
  induction ws as [|win rest IH]; intros c w Hrun.
  - exists c, w. cbn [run existsb]. rewrite Hrun. auto.
  - cbn [run existsb]. rewrite Hrun.
    destruct (deliver (samples win) c w) as [c1 w1] eqn:Hd.
    assert (Hr1 : running c1 = true).
    { change c1 with (fst (c1, w1)). rewrite <- Hd, deliver_running. exact Hrun. }
    assert (Hn1 : name c1 = name c).
    { change c1 with (fst (c1, w1)). rewrite <- Hd. apply deliver_name. }
    destruct (stop_request win).
    + destruct (run_iteration_positive interval (stop_ok win) (start_ok win)
                  (set_running false c1) w1 Hi) as (fps & ->).
      rewrite run_stopped by reflexivity.
      eexists _, _. cbn [orb negb]. split; [reflexivity|].
      split; [reflexivity|exact Hn1].
    + destruct (run_iteration_positive interval (stop_ok win) (start_ok win)
                  c1 w1 Hi) as (fps & ->).
      destruct (IH (with_frame_count 0 c1)
                  (stall_policy fps (stop_ok win) (start_ok win)
                     (with_frame_count 0 c1) (set_fps (name c1) fps w1)))
        as (c' & w' & H1 & H2 & H3); [exact Hr1|].
      exists c', w'. cbn [orb]. split; [exact H1|].
      split; [exact H2|]. rewrite H3. exact Hn1.
Qed.

(** Three windows, the stop request in the second. *)
Lemma run_exits_iff_stop_requested_witness :
  let c := mkCamera "cam0" "rtsp://a" true 0 true in
  let w := mkWorld [] [("cam0"%string, 0)] [] in
  let ws := [mkWindow [true] false true true; mkWindow [] true true true;
             mkWindow [true] false true true] in
  0 < 1 /\ running c = true /\
  exists c' w',
    run 1 ws c w = Some (Exited, c', w') /\
    running c' = false /\ name c' = name c.
Proof.
  intros c w ws.
  assert (H1 : 0 < 1) by lia.
  assert (H2 : running c = true) by reflexivity.
  split; [exact H1|]. split; [exact H2|].
  exact (run_exits_iff_stop_requested 1 ws c w H1 H2).
Defined.

(** Whatever follows the window in which [running] is cleared is not looked
    at. *)
Lemma run_stop_window_last interval ws1 win ws2 c w :
  stop_request win = true ->
  run interval (ws1 ++ win :: ws2)%list c w =
  run interval (ws1 ++ [win])%list c w.
Proof.
  intros Hs. revert c w. induction ws1 as [|x ws1 IH]; intros c w.
  - cbn [app run]. destruct (running c); [|reflexivity].
    destruct (deliver (samples win) c w) as [c1 w1]. rewrite Hs.
    unfold run_iteration.
    destruct (Int.div (frame_count (set_running false c1)) interval);
      [|reflexivity].
    now rewrite !run_stopped by reflexivity.
  - cbn [app run]. destruct (running c); [|reflexivity].
    destruct (deliver (samples x) c w) as [c1 w1].
    destruct (run_iteration interval (stop_ok x) (start_ok x)
                (if stop_request x then set_running false c1 else c1) w1)
      as [[c2 w2]|]; [apply IH|reflexivity].
Qed.

(** ** A camera that stays silent *)

Lemma state_changes_app tr l :
  state_changes (tr ++ l)%list =
  state_changes tr + Z.of_nat (List.length (set_states l)).
Proof.
  unfold state_changes. rewrite set_states_app, length_app. lia.
Qed.

(** Stalled windows from a counter in 0..4: the counter runs modulo 5 and
    every fifth stalled window adds one stop and one start. *)
Lemma run_zero_windows_count interval ws c w :
  interval <> 0 ->
  frame_count c = 0 ->
  running c = true ->
  Forall zero_window ws ->
  0 <= downtime (name c) w <= 4 ->
  exists w',
    run interval ws c w = Some (Looping, c, w') /\
    downtime (name c) w' =
      (downtime (name c) w + Z.of_nat (List.length ws)) mod 5 /\
    state_changes (trace w') =
      state_changes (trace w)
      + 2 * ((downtime (name c) w + Z.of_nat (List.length ws)) / 5).
Proof.
  intros Hi Hfc Hrun. revert w.
  induction ws as [|win rest IH]; intros w Hall Hd.
  - exists w. cbn [run List.length Z.of_nat]. rewrite Hrun, Z.add_0_r.
    rewrite Z.mod_small, Z.div_small by lia. repeat split; lia.
  - inversion Hall as [|? ? Hwin Hall']; subst.
    destruct (run_zero_window interval win rest c w Hi Hfc Hrun Hwin)
      as (w1 & Hstep & Hge & Hlt).
    { unfold Int.in_range, Int.INT_MIN, Int.INT_MAX. lia. }
    cbn [List.length]. rewrite Nat2Z.inj_succ.
    set (d := downtime (name c) w) in *.
    set (n := Z.of_nat (List.length rest)) in *.
    destruct (Z_lt_le_dec (d + 1) 5) as [Hb|Hb].
    + destruct (Hlt Hb) as [Hd1 Ht1].
      destruct (IH w1 Hall') as (w' & Hr & Hd' & Hs'); [lia|].
      exists w'. rewrite Hstep. split; [exact Hr|].
      fold n in Hd', Hs'. rewrite Hd1 in Hd', Hs'.
      unfold state_changes in *. rewrite Ht1 in Hs'.
      replace (d + Z.succ n) with (d + 1 + n) by lia. now split.
    + destruct (Hge Hb) as [Hd1 Ht1].
      destruct (IH w1 Hall') as (w' & Hr & Hd' & Hs'); [lia|].
      exists w'. rewrite Hstep. split; [exact Hr|].
      fold n in Hd', Hs'. rewrite Hd1 in Hd', Hs'.
      unfold state_changes in *. rewrite Ht1 in Hs'.
      rewrite length_app in Hs'. cbn [List.length] in Hs'.
      assert (Hd4 : d = 4) by lia.
      assert (Hn : 0 <= n) by (unfold n; lia).
      rewrite Hd4. split.
      * rewrite Hd'. clearbody n. clear - Hn.
        Z.div_mod_to_equations. lia.
      * rewrite Hs'. clearbody n. clear - Hn.
        Z.div_mod_to_equations. lia.
Qed.

(** A camera that delivers no frame from its start on is reconnected again
    and again, without a limit: after [n >= 1] windows its loop has made
    [2 * ((n - 1) / 5)] pipeline state changes, two per reconnect, and its
    counter is [(n - 1) mod 5]. *)
Theorem silent_camera_reconnects_every_five_windows
  nm u made play interval w0 ws :
  interval <> 0 ->
  ws <> [] ->
  Forall zero_window ws ->
  let c := fst (supervisor_started nm u made play w0) in
  let w := snd (supervisor_started nm u made play w0) in
  let n := Z.of_nat (List.length ws) in
  exists w',
    run interval ws c w = Some (Looping, c, w') /\
    downtime nm w' = (n - 1) mod 5 /\
    state_changes (trace w') = state_changes (trace w) + 2 * ((n - 1) / 5).
Proof.
  intros Hi Hne Hall c w n.
  assert (Hc : c = mkCamera nm u made 0 true)
    by apply supervisor_started_camera.
  assert (Hd : downtime (name c) w = -1).
  { rewrite Hc. apply supervisor_started_downtime. }
  assert (Hfc : frame_count c = 0) by now rewrite Hc.
  assert (Hrun : running c = true) by now rewrite Hc.
  assert (Hnm : name c = nm) by now rewrite Hc.
  destruct ws as [|win rest]; [contradiction|].
  inversion Hall as [|? ? Hwin Hall']; subst x l.
  destruct (run_zero_window interval win rest c w Hi Hfc Hrun Hwin)
    as (w1 & Hstep & _ & Hlt).
  { rewrite Hd. unfold Int.in_range, Int.INT_MIN, Int.INT_MAX. lia. }
  destruct Hlt as [Hd1 Ht1]; [rewrite Hd; lia|].
  rewrite Hd in Hd1.
  destruct (run_zero_windows_count interval rest c w1 Hi Hfc Hrun Hall')
    as (w' & Hr & Hd' & Hs'); [rewrite Hd1; lia|].
  exists w'. rewrite Hstep. split; [exact Hr|].
  rewrite Hd1 in Hd', Hs'. unfold state_changes in *. rewrite Ht1 in Hs'.
  subst n. cbn [List.length]. rewrite Nat2Z.inj_succ.
  replace (Z.succ (Z.of_nat (List.length rest)) - 1)
    with (-1 + 1 + Z.of_nat (List.length rest)) by lia.
  rewrite <- Hnm. now split.
Qed.

(** Eleven silent windows: two reconnects, the counter at 0. *)
Lemma silent_camera_reconnects_every_five_windows_witness :
  let zw := mkWindow [false] false false false in
  let ws := List.repeat zw 11 in
  let w0 := mkWorld [] [] [] in
  let c := fst (supervisor_started "cam0" "rtsp://a" true false w0) in
  let w := snd (supervisor_started "cam0" "rtsp://a" true false w0) in
  2 <> 0 /\ ws <> [] /\ Forall zero_window ws /\
  exists w',
    run 2 ws c w = Some (Looping, c, w') /\
    downtime "cam0" w' = (11 - 1) mod 5 /\
    state_changes (trace w') = state_changes (trace w) + 2 * ((11 - 1) / 5).
Proof.
  intros zw ws w0 c w.
  assert (H1 : 2 <> 0) by lia.
  assert (H2 : ws <> []) by discriminate.
  assert (H3 : Forall zero_window ws) by (repeat constructor).
  split; [exact H1|]. split; [exact H2|]. split; [exact H3|].
  exact (silent_camera_reconnects_every_five_windows
           "cam0" "rtsp://a" true false 2 w0 ws H1 H2 H3).
Defined.

(** ** What counts as a stalled window *)

(** With a positive interval a window counts as stalled exactly when it
    delivered fewer frames than the interval has seconds: the fps published
    is then 0 and the counter moves towards a reconnect, however many frames
    arrived; with at least that many frames the fps is positive, the counter
    is 0 and no pipeline state changes. *)
Theorem stalled_iff_fewer_frames_than_interval
  interval stop_ok start_ok c w :
  0 < interval ->
  0 <= frame_count c ->
  -1 <= downtime (name c) w <= 4 ->
  exists w',
    run_iteration interval stop_ok start_ok c w
      = Some (with_frame_count 0 c, w') /\
    (frame_count c < interval ->
       StdMap.find (name c) (fps_map w') = Some 0 /\
       downtime (name c) w' =
         if downtime (name c) w + 1 >=? 5 then 0
         else downtime (name c) w + 1) /\
    (interval <= frame_count c ->
       StdMap.find (name c) (fps_map w') = Some (frame_count c / interval) /\
       0 < frame_count c / interval /\
       downtime (name c) w' = 0 /\
       set_states (trace w') = set_states (trace w)).
Proof.
  intros Hi Hf Hd.
  pose proof (Int_div_pos (frame_count c) interval Hf Hi) as Hdiv.
  rewrite (run_iteration_some _ _ _ _ _ _ Hdiv).
  eexists. split; [reflexivity|].
  assert (Hr : Int.in_range
                 (downtime (name (with_frame_count 0 c))
                    (set_fps (name c) (frame_count c / interval) w) + 1)).
  { rewrite downtime_set_fps. cbn [name with_frame_count].
    unfold Int.in_range, Int.INT_MIN, Int.INT_MAX. lia. }
  rewrite fps_map_stall_policy. cbn [set_fps fps_map]. rewrite find_set_same.
  split.
  - intros Hlt. rewrite (Z.div_small _ _ (conj Hf Hlt)) in *.
    split; [reflexivity|].
    apply (downtime_stall_policy 0 stop_ok start_ok (with_frame_count 0 c)
             (set_fps (name c) 0 w) Hr).
  - intros Hge.
    assert (Hpos : 0 < frame_count c / interval)
      by (apply Z.div_str_pos; lia).
    split; [reflexivity|]. split; [exact Hpos|].
    destruct (stall_policy_nonzero (frame_count c / interval) stop_ok start_ok
                (with_frame_count 0 c)
                (set_fps (name c) (frame_count c / interval) w)) as [H1 H2];
      [lia|].
    split; [exact H1|]. now rewrite H2.
Qed.

(** Nine frames in a ten second window, the counter at 4: a reconnect. *)
Lemma stalled_iff_fewer_frames_than_interval_witness :
  let c := mkCamera "cam0" "rtsp://a" true 9 true in
  let w := mkWorld [] [("cam0"%string, 4)] [] in
  0 < 10 /\ 0 <= frame_count c /\ -1 <= downtime (name c) w <= 4 /\
  exists w',
    run_iteration 10 true true c w = Some (with_frame_count 0 c, w') /\
    (frame_count c < 10 ->
       StdMap.find (name c) (fps_map w') = Some 0 /\
       downtime (name c) w' =
         if downtime (name c) w + 1 >=? 5 then 0
         else downtime (name c) w + 1).
Proof.
  intros c w.
  assert (H1 : 0 < 10) by lia.
  assert (H2 : 0 <= frame_count c) by (simpl; lia).
  assert (H3 : -1 <= downtime (name c) w <= 4) by (vm_compute; split; discriminate).
  split; [exact H1|]. split; [exact H2|]. split; [exact H3|].
  destruct (stalled_iff_fewer_frames_than_interval 10 true true c w H1 H2 H3)
    as (w' & Hr & Hlt & _).
  exists w'. split; [exact Hr|exact Hlt].
Defined.

(** ** The stream list *)

Lemma to_string_inj a b : to_string a = to_string b -> a = b.
Proof.
  unfold to_string. intros H.
  assert (Hnn : forall z, Z.to_int z <> Decimal.Pos Decimal.Nil /\
                          Z.to_int z <> Decimal.Neg Decimal.Nil).
  { intros [|p|p]; cbn [Z.to_int]; split; try discriminate;
      intros [= Hp]; now apply (DecimalPos.Unsigned.to_uint_nonnil p). }
  apply (f_equal NilZero.int_of_string) in H.
  rewrite !NilZero.isi in H by apply Hnn.
  injection H as H. apply (f_equal Z.of_int) in H.
  now rewrite !DecimalZ.of_to in H.
Qed.

Lemma cam_key_inj a b :
  ("cam" ++ to_string a)%string = ("cam" ++ to_string b)%string -> a = b.
Proof. cbn [append]. intros [= H]. now apply to_string_inj. Qed.

Lemma length_set_fresh {V} k (v : V) m :
  StdMap.find k m = None ->
  List.length (StdMap.set k v m) = S (List.length m).
Proof.
  induction m as [|[k' v'] rest IH]; cbn [StdMap.find StdMap.set]; intros H.
  - reflexivity.
  - destruct (String.compare k k'); [discriminate|reflexivity|].
    cbn [List.length]. now rewrite IH.
Qed.

Lemma named_lines_cons line rest :
  named_lines (line :: rest) =
  if String.eqb line "" then named_lines rest else line :: named_lines rest.
Proof. unfold named_lines. cbn [filter]. now destruct (String.eqb line ""). Qed.

(** The loop of [read_camera_uris] from index [index] on. *)
Lemma read_lines_spec lines index m :
  0 <= index ->
  index + Z.of_nat (List.length (named_lines lines)) <= Int.INT_MAX ->
  (StdMap.ordered m -> StdMap.ordered (read_lines lines index m)) /\
  ((forall j, index <= j ->
      StdMap.find ("cam" ++ to_string j)%string m = None) ->
   List.length (read_lines lines index m) =
   (List.length m + List.length (named_lines lines))%nat) /\
  (forall j,
     StdMap.find ("cam" ++ to_string j)%string (read_lines lines index m) =
     if (index <=? j) && (j <? index + Z.of_nat (List.length (named_lines lines)))
     then nth_error (named_lines lines) (Z.to_nat (j - index))
     else StdMap.find ("cam" ++ to_string j)%string m).
Proof.
  revert index m. induction lines as [|line rest IH]; intros index m H0 Hmax.
  - cbn [read_lines named_lines filter List.length Z.of_nat].
    split; [auto|]. split; [intros _; lia|].
    intros j. rewrite Z.add_0_r.
    destruct (Z.leb_spec index j), (Z.ltb_spec j index); try reflexivity; lia.
  - rewrite named_lines_cons in *. cbn [read_lines].
    destruct (String.eqb line "") eqn:El; [now apply IH|].
    cbn [List.length] in *. rewrite Nat2Z.inj_succ in *.
    assert (Ha : Int.add index 1 = index + 1).
    { apply Int_add_small. unfold Int.in_range, Int.INT_MIN, Int.INT_MAX in *.
      lia. }
    rewrite Ha.
    destruct (IH (index + 1)
                (StdMap.set ("cam" ++ to_string index)%string line m))
      as (Ho & Hl & Hf); [lia|lia|].
    split; [|split].
    + intros Hm. now apply Ho, ordered_set.
    + intros Hfresh. rewrite Hl.
      * rewrite length_set_fresh by (apply Hfresh; lia). lia.
      * intros j Hj. rewrite find_set_other; [apply Hfresh; lia|].
        intros E. apply cam_key_inj in E. lia.
    + intros j. rewrite Hf.
      destruct (Z.leb_spec (index + 1) j), (Z.leb_spec index j);
        cbn [andb]; try lia.
      * destruct (Z.ltb_spec j (index + 1 + Z.of_nat (List.length
                                                         (named_lines rest))));
          destruct (Z.ltb_spec j (index + Z.succ (Z.of_nat (List.length
                                                         (named_lines rest)))));
          try lia.
        -- replace (Z.to_nat (j - index)) with (S (Z.to_nat (j - (index + 1))))
             by lia. reflexivity.
        -- apply find_set_other. intros E. apply cam_key_inj in E. lia.
      * assert (j = index) by lia. subst j.
        destruct (Z.ltb_spec index (index + Z.succ (Z.of_nat (List.length
                                                         (named_lines rest)))));
          [|lia].
        rewrite Z.sub_diag. cbn [Z.to_nat nth_error]. apply find_set_same.
      * apply find_set_other. intros E. apply cam_key_inj in E. lia.
Qed.

(** [read_camera_uris] on a readable file logs nothing, skips the empty
    lines and stores the i-th remaining line (from 0) under the key
    ["cam<i>"]: the map has one entry per such line, in key order, and no
    entry under any other ["cam<j>"]. *)
Theorem read_camera_uris_numbers_named_lines filename lines w :
  Z.of_nat (List.length (named_lines lines)) <= Int.INT_MAX ->
  let m := fst (read_camera_uris filename (Some lines) w) in
  snd (read_camera_uris filename (Some lines) w) = w /\
  StdMap.size m = List.length (named_lines lines) /\
  StdMap.ordered m /\
  (forall i : nat,
     StdMap.find ("cam" ++ to_string (Z.of_nat i))%string m =
     nth_error (named_lines lines) i) /\
  (forall j, j < 0 -> StdMap.find ("cam" ++ to_string j)%string m = None).
Proof.
  intros Hmax m. subst m. cbn [read_camera_uris fst snd].
  destruct (read_lines_spec lines 0 StdMap.empty) as (Ho & Hl & Hf);
    [lia|lia|].
  split; [reflexivity|]. split; [|split; [|split]].
  - unfold StdMap.size. rewrite Hl; [reflexivity|]. intros j _. reflexivity.
  - apply Ho. constructor.
  - intros i. rewrite Hf. cbn [Z.add].
    destruct (Z.leb_spec 0 (Z.of_nat i)); [|lia]. cbn [andb].
    rewrite Z.sub_0_r, Nat2Z.id.
    destruct (Z.ltb_spec (Z.of_nat i)
                (Z.of_nat (List.length (named_lines lines)))).
    + reflexivity.
    + symmetry. apply nth_error_None. lia.
  - intros j Hj. rewrite Hf.
    destruct (Z.leb_spec 0 j); [lia|]. reflexivity.
Qed.

(** Three cameras among blank lines. *)
Lemma read_camera_uris_numbers_named_lines_witness :
  let lines := [""; "rtsp://a"; ""; "rtsp://b"; "rtsp://c"; ""]%string in
  let w := mkWorld [] [] [] in
  let m := fst (read_camera_uris "../cameras.txt" (Some lines) w) in
  Z.of_nat (List.length (named_lines lines)) <= Int.INT_MAX /\
  StdMap.size m = 3%nat /\
  StdMap.find "cam1" m = Some "rtsp://b"%string.
Proof.
  intros lines w m.
  assert (H : Z.of_nat (List.length (named_lines lines)) <= Int.INT_MAX)
    by (vm_compute; discriminate).
  split; [exact H|].
  destruct (read_camera_uris_numbers_named_lines "../cameras.txt" lines w H)
    as (_ & Hs & _ & Hf & _).
  split; [exact Hs|exact (Hf 1%nat)].
Defined.

(** ** What [main] sets up *)

Lemma Camera_new_camera nm u made w :
  fst (Camera_new nm u made w) = mkCamera nm u made 0 true.
Proof. unfold Camera_new. now destruct made. Qed.

Lemma set_states_Camera_new nm u made w :
  set_states (trace (snd (Camera_new nm u made w))) = set_states (trace w).
Proof.
  unfold Camera_new. destruct made; cbn [snd emit trace set_downtime];
    rewrite !set_states_app; cbn; now rewrite !app_nil_r.
Qed.

Lemma launch_spec gst camera_uris cams w :
  fst (launch gst camera_uris cams w) =
    (cams ++ List.map (launched_camera gst) camera_uris)%list /\
  fps_map (snd (launch gst camera_uris cams w)) = fps_map w /\
  set_states (trace (snd (launch gst camera_uris cams w))) =
    (set_states (trace w) ++ List.map (launched_start gst) camera_uris)%list /\
  (forall k, In k (StdMap.keys camera_uris) ->
             downtime k (snd (launch gst camera_uris cams w)) = -1) /\
  (forall k, ~ In k (StdMap.keys camera_uris) ->
             downtime k (snd (launch gst camera_uris cams w)) = downtime k w).
Proof.
  revert cams w. induction camera_uris as [|[nm u] rest IH]; intros cams w.
  - cbn. rewrite !app_nil_r. repeat split; auto. intros k [].
  - cbn [launch].
    destruct (Camera_new nm u (factory_ok gst nm) w) as [c w1] eqn:E.
    assert (Hc : c = mkCamera nm u (factory_ok gst nm) 0 true).
    { change c with (fst (c, w1)). rewrite <- E. apply Camera_new_camera. }
    assert (Hw1 : w1 = snd (Camera_new nm u (factory_ok gst nm) w))
      by now rewrite E.
    set (w2 := emit (Spawn (RunThread nm)) (start (play_ok gst nm) c w1)).
    destruct (IH (cams ++ [c])%list w2) as (H1 & H2 & H3 & H4 & H5).
    assert (Hd2 : forall k, downtime k w2 = downtime k w1).
    { intros k. subst w2. now rewrite downtime_emit, downtime_start. }
    split; [|split; [|split; [|split]]].
    + rewrite H1, <- app_assoc, Hc. reflexivity.
    + rewrite H2. subst w2. cbn [emit fps_map]. rewrite fps_map_start, Hw1.
      apply Camera_new_world.
    + rewrite H3. subst w2. cbn [emit trace]. rewrite set_states_app.
      rewrite set_states_start, Hw1, set_states_Camera_new, Hc.
      cbn. now rewrite app_nil_r, <- app_assoc.
    + intros k Hin.
      destruct (in_dec string_dec k (StdMap.keys rest)) as [Hr|Hr].
      * now apply H4.
      * rewrite (H5 k Hr), Hd2, Hw1. cbn in Hin.
        destruct Hin as [<-|Hin]; [|contradiction]. apply Camera_new_world.
    + intros k Hn. cbn in Hn.
      rewrite H5 by tauto. rewrite Hd2, Hw1.
      apply downtime_Camera_new_other. intros ->. tauto.
Qed.



(** ** The reporter alone *)

(** [print_fps] only reads: after any number of passes both maps are as
    before, and the trace has grown by exactly one line per pass, each the
    report of the same registry under that pass's timestamp. *)
Theorem print_fps_only_reads timestamps w :
  fps_map (snd (print_fps timestamps w)) = fps_map w /\
  downtime_map (snd (print_fps timestamps w)) = downtime_map w /\
  trace (snd (print_fps timestamps w)) =
    (trace w ++
     List.map (fun ts => Cout (report_line ts (fps_map w))) timestamps)%list.
Proof.
  revert w. induction timestamps as [|ts rest IH]; intros w.
  - cbn. now rewrite app_nil_r.
  - cbn [print_fps List.map]. rewrite print_fps_iteration_line.
    destruct (IH (emit (Cout (report_line ts (fps_map w))) w))
      as (H1 & H2 & H3).
    rewrite H1, H2, H3. cbn [emit fps_map downtime_map trace].
    now rewrite <- app_assoc.
Qed.

(** ** The cleanup loop *)

Lemma set_states_Camera_delete ok c w :
  set_states (trace (Camera_delete ok c w)) =
  (set_states (trace w) ++ [SetState (uri c) GST_STATE_NULL ok])%list.
Proof.
  unfold Camera_delete. cbn [emit trace]. rewrite !set_states_app. cbn.
  now rewrite app_nil_r.
Qed.

(** The cleanup of [main] clears [running] on every camera and changes
    nothing else of it; it sets every pipeline to NULL twice, in [stop] and
    in the destructor, in the order of the cameras, and never to PLAYING;
    it leaves both maps as they are, so the registry keeps its entries. *)
Theorem cleanup_stops_every_camera gst cams w :
  fst (cleanup gst cams w) = List.map (set_running false) cams /\
  set_states (trace (snd (cleanup gst cams w))) =
    (set_states (trace w) ++
     List.flat_map
       (fun c => [SetState (uri c) GST_STATE_NULL (null_ok gst (name c));
                  SetState (uri c) GST_STATE_NULL (null_ok gst (name c))])
       cams)%list /\
  fps_map (snd (cleanup gst cams w)) = fps_map w /\
  downtime_map (snd (cleanup gst cams w)) = downtime_map w.
Proof.
  revert w. induction cams as [|c rest IH]; intros w.
  - cbn. now rewrite app_nil_r.
  - cbn [cleanup].
    set (c' := set_running false c).
    set (w1 := Camera_delete (null_ok gst (name c')) c'
                 (stop (null_ok gst (name c')) c' w)).
    destruct (cleanup gst rest w1) as [rest' w2] eqn:E.
    destruct (IH w1) as (H1 & H2 & H3 & H4). rewrite E in H1, H2, H3, H4.
    cbn [fst snd] in *. split; [|split; [|split]].
    + cbn [List.map]. now rewrite H1.
    + rewrite H2. subst w1. rewrite set_states_Camera_delete, set_states_stop.
      cbn [flat_map]. rewrite <- !app_assoc. reflexivity.
    + rewrite H3. subst w1. unfold Camera_delete. cbn [emit fps_map].
      apply fps_map_stop.
    + rewrite H4. subst w1. unfold Camera_delete, stop.
      now destruct (null_ok gst (name c')).
Qed.

(** ** Cameras and the keys of the maps *)

Lemma put_camera_identity i c c' cs :
  nth_error cs i = Some c -> identity c' = identity c ->
  List.map identity (put_camera i c' cs) = List.map identity cs.
Proof.
  revert i. induction cs as [|x cs IH]; intros [|i] Hn Hid; cbn in *;
    try discriminate.
  - injection Hn as ->. now rewrite Hid.
  - now rewrite IH.
Qed.

Lemma exec_identity interval o s s' :
  exec interval o s = Some s' ->
  List.map identity (cameras s') = List.map identity (cameras s) \/
  exists nm u made,
    o = OpNew nm u made /\
    List.map identity (cameras s') =
      (List.map identity (cameras s) ++ [(nm, u, made)])%list.
Proof.
  unfold exec. destruct o as [nm u made|i ok|i ok|i st|i pulled|i so sa|ts].
  - destruct (Camera_new nm u made (world s)) as [c w] eqn:E.
    intros [= <-]. right. exists nm, u, made. split; [reflexivity|].
    cbn [cameras]. rewrite map_app. cbn [List.map].
    change c with (fst (c, w)). now rewrite <- E, Camera_new_camera.
  - destruct (nth_error (cameras s) i) as [c|] eqn:Hn; [|discriminate].
    intros [= <-]. left. now apply (put_camera_identity i c).
  - destruct (nth_error (cameras s) i) as [c|] eqn:Hn; [|discriminate].
    intros [= <-]. left. now apply (put_camera_identity i c).
  - destruct (nth_error (cameras s) i) as [c|] eqn:Hn; [|discriminate].
    intros [= <-]. left. now apply (put_camera_identity i c).
  - destruct (nth_error (cameras s) i) as [c|] eqn:Hn; [|discriminate].
    destruct (on_new_sample pulled c (world s)) as [c1 w1] eqn:E.
    intros [= <-]. left. apply (put_camera_identity i c); [exact Hn|].
    change c1 with (fst (c1, w1)). rewrite <- E. unfold on_new_sample.
    now destruct pulled.
  - destruct (nth_error (cameras s) i) as [c|] eqn:Hn; [|discriminate].
    destruct (running c).
    + unfold run_iteration.
      destruct (Int.div (frame_count c) interval); [|discriminate].
      intros [= <-]. left. now apply (put_camera_identity i c).
    + intros [= <-]. left. now apply (put_camera_identity i c).
  - intros [= <-]. now left.
Qed.

Lemma find_set_cases {V} k k2 (v : V) m :
  StdMap.find k2 (StdMap.set k v m) <> None ->
  k2 = k \/ StdMap.find k2 m <> None.
Proof.
  intros H. destruct (string_dec k2 k) as [->|Hne]; [now left|].
  right. now rewrite find_set_other in H.
Qed.

(** In every reachable state each key of the registry and each key of the
    downtime map is the name of a camera that has been constructed: the
    program keeps no entry for an unknown stream. *)
Theorem map_keys_are_camera_names interval s :
  reachable interval s ->
  forall k,
    (StdMap.find k (fps_map (world s)) <> None ->
     In k (List.map name (cameras s))) /\
    (StdMap.find k (downtime_map (world s)) <> None ->
     In k (List.map name (cameras s))).
Proof.
  intros [ops E]. revert s E.
  induction ops as [|o ops IH] using rev_ind; intros s E k.
  - injection E as <-. cbn. split; intros H; now apply H.
  - rewrite exec_all_app in E.
    destruct (exec_all interval ops initial) as [s0|] eqn:E0; [|discriminate].
    cbn [exec_all] in E.
    destruct (exec interval o s0) as [s1|] eqn:E1; [|discriminate].
    injection E as <-.
    assert (Hkeep : forall x, In x (List.map name (cameras s0)) ->
                              In x (List.map name (cameras s1))).
    { intros x Hx.
      assert (Hid : forall t, List.map name (cameras t)
                    = List.map fst (List.map fst (List.map identity (cameras t))))
        by (intros t; now rewrite !map_map).
      rewrite Hid in *.
      destruct (exec_identity interval o s0 s1 E1)
        as [->|(nm & u & made & _ & ->)]; [exact Hx|].
      rewrite !map_app. apply in_or_app. now left. }
    specialize (IH s0 eq_refl). destruct (IH k) as [IHf IHd].
    revert E1. unfold exec.
    destruct o as [nm u made|i ok|i ok|i st|i pulled|i so sa|ts].
    + destruct (Camera_new nm u made (world s0)) as [c w] eqn:Ec.
      intros [= <-]. cbn [world cameras].
      assert (Hw : w = snd (Camera_new nm u made (world s0))) by now rewrite Ec.
      assert (Hc : c = mkCamera nm u made 0 true).
      { change c with (fst (c, w)). rewrite <- Ec. apply Camera_new_camera. }
      rewrite map_app. cbn [List.map]. split; intros H.
      * apply in_or_app. left. apply IHf.
        now rewrite Hw, (proj1 (Camera_new_world nm u made (world s0))) in H.
      * assert (Hdm : downtime_map w
                      = StdMap.set nm (-1) (downtime_map (world s0))).
        { rewrite Hw. unfold Camera_new. now destruct made. }
        rewrite Hdm in H. apply find_set_cases in H.
        apply in_or_app. destruct H as [->|H].
        -- right. rewrite Hc. now left.
        -- left. now apply IHd.
    + destruct (nth_error (cameras s0) i) as [c|] eqn:Hn; [|discriminate].
      intros E1. pose proof E1 as E1'. injection E1 as <-. cbn [world] in *.
      rewrite fps_map_start.
      assert (Hd : downtime_map (start ok c (world s0))
                   = downtime_map (world s0))
        by (unfold start; now destruct ok).
      rewrite Hd. split; intros H; apply (Hkeep k); [now apply IHf|now apply IHd].
    + destruct (nth_error (cameras s0) i) as [c|] eqn:Hn; [|discriminate].
      intros E1. pose proof E1 as E1'. injection E1 as <-. cbn [world] in *.
      rewrite fps_map_stop.
      assert (Hd : downtime_map (stop ok c (world s0))
                   = downtime_map (world s0))
        by (unfold stop; now destruct ok).
      rewrite Hd. split; intros H; apply (Hkeep k); [now apply IHf|now apply IHd].
    + destruct (nth_error (cameras s0) i) as [c|] eqn:Hn; [|discriminate].
      intros E1. pose proof E1 as E1'. injection E1 as <-. cbn [world] in *.
      split; intros H; apply (Hkeep k); [now apply IHf|now apply IHd].
    + destruct (nth_error (cameras s0) i) as [c|] eqn:Hn; [|discriminate].
      destruct (on_new_sample pulled c (world s0)) as [c1 w1] eqn:Es.
      intros E1. pose proof E1 as E1'. injection E1 as <-. cbn [world] in *.
      destruct (on_new_sample_world pulled c (world s0)) as [H1 H2].
      rewrite Es in H1, H2. cbn [snd] in H1, H2. rewrite H1, H2.
      split; intros H; apply (Hkeep k); [now apply IHf|now apply IHd].
    + destruct (nth_error (cameras s0) i) as [c|] eqn:Hn; [|discriminate].
      destruct (running c).
      * unfold run_iteration.
        destruct (Int.div (frame_count c) interval) as [fps|]; [|discriminate].
        intros E1. pose proof E1 as E1'. injection E1 as <-. cbn [world] in *.
        assert (Hname : In (name c) (List.map name (cameras s0))).
        { apply in_map. eapply nth_error_In; eassumption. }
        split; intros H; apply (Hkeep k).
        -- rewrite fps_map_stall_policy in H. cbn [set_fps fps_map] in H.
           apply find_set_cases in H. destruct H as [->|H];
             [exact Hname|now apply IHf].
        -- destruct (string_dec k (name c)) as [->|Hne]; [exact Hname|].
           apply IHd. intros Hnone. apply H. clear H.
           unfold stall_policy.
           destruct (fps =? 0);
             [match goal with |- context [if ?b then _ else _] =>
                destruct b end|];
             cbn [set_downtime set_fps downtime_map emit with_frame_count name];
             repeat first
               [ rewrite find_set_other by exact Hne
               | match goal with
                 | |- context [downtime_map (start ?a ?b ?x)] =>
                     replace (downtime_map (start a b x))
                       with (downtime_map x)
                       by (unfold start; now destruct a)
                 | |- context [downtime_map (stop ?a ?b ?x)] =>
                     replace (downtime_map (stop a b x))
                       with (downtime_map x)
                       by (unfold stop; now destruct a)
                 end
               | progress cbn [set_downtime set_fps downtime_map emit] ];
             exact Hnone.
      * intros E1. pose proof E1 as E1'. injection E1 as <-. cbn [world] in *.
        split; intros H; apply (Hkeep k); [now apply IHf|now apply IHd].
    + intros [= <-]. cbn [world cameras].
      rewrite print_fps_iteration_line. cbn [emit fps_map downtime_map].
      split; [exact IHf|exact IHd].
Qed.

(** Two cameras, one pass of the second. *)
Lemma map_keys_are_camera_names_witness :
  let ops := [OpNew "cam0" "rtsp://a" true; OpNew "cam1" "rtsp://b" true;
              OpNewSample 1 true; OpRun 1 true true] in
  let s := match exec_all 1 ops initial with
           | Some s => s
           | None => initial
           end in
  reachable 1 s /\
  StdMap.find "cam1" (fps_map (world s)) <> None /\
  In "cam1"%string (List.map name (cameras s)).
Proof.
  intros ops s.
  assert (Hr : reachable 1 s) by (exists ops; reflexivity).
  assert (Hf : StdMap.find "cam1" (fps_map (world s)) <> None)
    by (vm_compute; discriminate).
  split; [exact Hr|]. split; [exact Hf|].
  exact (proj1 (map_keys_are_camera_names 1 s Hr "cam1"%string) Hf).
Defined.

(** ** Reading the interval back *)

Lemma digits_uint_acc d acc :
  digits (NilEmpty.string_of_uint d) (Some (Z.pos acc)) =
  Some (Z.pos (Pos.of_uint_acc d acc)).
Proof.
  revert acc. induction d; intros acc;
    cbn [NilEmpty.string_of_uint Pos.of_uint_acc]; [reflexivity|..];
    cbn [digits];
    match goal with
    | |- context [digit ?ch] =>
        let v := eval vm_compute in (digit ch) in
        change (digit ch) with v; cbv iota
    end;
    match goal with
    | |- digits _ (Some ?x) = Some (Z.pos (Pos.of_uint_acc _ ?y)) =>
        replace x with (Z.pos y) by lia
    end;
    apply IHd.
Qed.

Lemma digits_uint_zero d :
  digits (NilEmpty.string_of_uint d) (Some 0) = Some (Z.of_N (Pos.of_uint d)).
Proof.
  induction d; cbn [NilEmpty.string_of_uint Pos.of_uint];
    [reflexivity|..]; cbn [digits];
    match goal with
    | |- context [digit ?ch] =>
        let v := eval vm_compute in (digit ch) in
        change (digit ch) with v; cbv iota
    end;
    [exact IHd|..]; cbn [Z.mul Z.add Z.of_N]; apply digits_uint_acc.
Qed.

Lemma digits_uint d :
  d <> Decimal.Nil ->
  digits (NilEmpty.string_of_uint d) None = Some (Z.of_N (Pos.of_uint d)).
Proof.
  intros Hd. destruct d; [contradiction|..];
    cbn [NilEmpty.string_of_uint Pos.of_uint digits];
    match goal with
    | |- context [digit ?ch] =>
        let v := eval vm_compute in (digit ch) in
        change (digit ch) with v; cbv iota
    end;
    cbn [Z.mul Z.add Z.of_N];
    [apply digits_uint_zero|..]; apply digits_uint_acc.
Qed.

Lemma stoi_unsigned d :
  d <> Decimal.Nil ->
  stoi (NilEmpty.string_of_uint d) =
  match digits (NilEmpty.string_of_uint d) None with
  | None => Throw invalid_argument
  | Some n =>
      if (Int.INT_MIN <=? n) && (n <=? Int.INT_MAX) then Ok n
      else Throw out_of_range
  end.
Proof. intros Hd. destruct d; [contradiction|..]; reflexivity. Qed.

Lemma stoi_negative s :
  stoi (String "-" s) =
  match digits s None with
  | None => Throw invalid_argument
  | Some n =>
      if (Int.INT_MIN <=? - n) && (- n <=? Int.INT_MAX) then Ok (- n)
      else Throw out_of_range
  end.
Proof. reflexivity. Qed.

(** What [operator<<] and [std::to_string] write for an [int] is read back
    by [std::stoi] as the same [int]. *)
Lemma stoi_to_string z : Int.in_range z -> stoi (to_string z) = Ok z.
Proof.
  unfold Int.in_range, Int.INT_MIN, Int.INT_MAX. intros Hr.
  destruct z as [|p|p].
  - reflexivity.
  - unfold to_string. cbn [Z.to_int NilZero.string_of_int].
    pose proof (DecimalPos.Unsigned.to_uint_nonnil p) as Hnn.
    assert (Hs : NilZero.string_of_uint (Pos.to_uint p)
                 = NilEmpty.string_of_uint (Pos.to_uint p)).
    { unfold NilZero.string_of_uint. now destruct (Pos.to_uint p). }
    rewrite Hs, stoi_unsigned, digits_uint by exact Hnn.
    rewrite DecimalPos.Unsigned.of_to. cbn [Z.of_N].
    unfold Int.INT_MIN, Int.INT_MAX.
    destruct (Z.leb_spec (-2147483648) (Z.pos p)),
             (Z.leb_spec (Z.pos p) 2147483647); try lia. reflexivity.
  - unfold to_string. cbn [Z.to_int NilZero.string_of_int].
    pose proof (DecimalPos.Unsigned.to_uint_nonnil p) as Hnn.
    assert (Hs : NilZero.string_of_uint (Pos.to_uint p)
                 = NilEmpty.string_of_uint (Pos.to_uint p)).
    { unfold NilZero.string_of_uint. now destruct (Pos.to_uint p). }
    rewrite Hs, stoi_negative, digits_uint by exact Hnn.
    rewrite DecimalPos.Unsigned.of_to. cbn [Z.of_N Z.opp].
    unfold Int.INT_MIN, Int.INT_MAX.
    destruct (Z.leb_spec (-2147483648) (Z.neg p)),
             (Z.leb_spec (Z.neg p) 2147483647); try lia. reflexivity.
Qed.

(** Every [int] written in decimal is accepted as the interval: [main]
    reads back exactly that number and launches the run with it, the
    negative ones and 0 included. *)
Theorem main_accepts_every_decimal_int gst prog file w interval :
  Int.in_range interval ->
  stoi (to_string interval) = Ok interval /\
  exists cams w',
    main_startup gst [prog; to_string interval] file w
      = (Launched interval cams, w').
Proof.
  intros Hr. pose proof (stoi_to_string interval Hr) as Hs.
  split; [exact Hs|].
  rewrite (main_startup_ok gst [prog; to_string interval] file w interval);
    [|cbn; lia|exact Hs].
  eexists _, _. reflexivity.
Qed.

(** The interval -3. *)
Lemma main_accepts_every_decimal_int_witness :
  let gst := mkGst (fun _ => true) (fun _ => true) (fun _ => true) in
  let w := mkWorld [] [] [] in
  Int.in_range (-3) /\
  stoi (to_string (-3)) = Ok (-3) /\
  exists cams w',
    main_startup gst ["./check_fps"%string; to_string (-3)] None w
      = (Launched (-3) cams, w').
Proof.
  intros gst w.
  assert (H : Int.in_range (-3))
    by (unfold Int.in_range, Int.INT_MIN, Int.INT_MAX; lia).
  split; [exact H|].
  exact (main_accepts_every_decimal_int gst "./check_fps" None w (-3) H).
Defined.

(** ** The frame callback *)

Lemma deliver_camera pulls c w :
  identity (fst (deliver pulls c w)) = identity c /\
  running (fst (deliver pulls c w)) = running c.
Proof.
  revert c w. induction pulls as [|b rest IH]; intros c w; [now split|].
  cbn [deliver]. destruct b; cbn [on_new_sample].
  - destruct (IH (with_frame_count (Int.add (frame_count c) 1) c) w)
      as [H1 H2]. rewrite H1, H2. now split.
  - apply IH.
Qed.

Lemma deliver_trace pulls c w :
  trace (snd (deliver pulls c w)) =
  (trace w ++
   List.repeat (Cerr ("Failed to pull sample for camera: " ++ uri c)%string)
     (List.length (List.filter negb pulls)))%list.
Proof.
  revert c w. induction pulls as [|b rest IH]; intros c w.
  - cbn. now rewrite app_nil_r.
  - cbn [deliver]. destruct b; cbn [on_new_sample filter negb].
    + rewrite IH. reflexivity.
    + rewrite IH. cbn [emit trace List.length List.repeat].
      now rewrite <- app_assoc.
Qed.

(** The callbacks of a window count exactly the samples that could be
    pulled: the counter grows by their number (as long as it stays an
    [int]), every failed pull writes one error line and counts nothing, and
    neither the camera's identity and [running] nor the maps change. *)
Theorem on_new_sample_counts_pulled_samples pulls c w :
  0 <= frame_count c ->
  frame_count c + frames_delivered pulls <= Int.INT_MAX ->
  frame_count (fst (deliver pulls c w)) = frame_count c + frames_delivered pulls /\
  identity (fst (deliver pulls c w)) = identity c /\
  running (fst (deliver pulls c w)) = running c /\
  fps_map (snd (deliver pulls c w)) = fps_map w /\
  downtime_map (snd (deliver pulls c w)) = downtime_map w /\
  trace (snd (deliver pulls c w)) =
    (trace w ++
     List.repeat (Cerr ("Failed to pull sample for camera: " ++ uri c)%string)
       (List.length (List.filter negb pulls)))%list.
Proof.
  intros H0 Hmax.
  destruct (deliver_camera pulls c w) as [Hi Hr].
  destruct (deliver_maps pulls c w) as (Hf & Hd & _).
  repeat split; auto using deliver_frame_count, deliver_trace.
Qed.

(** Five callbacks, two of them without a sample. *)
Lemma on_new_sample_counts_pulled_samples_witness :
  let c := mkCamera "cam0" "rtsp://a" true 4 true in
  let w := mkWorld [] [] [] in
  let pulls := [true; false; true; true; false] in
  0 <= frame_count c /\
  frame_count c + frames_delivered pulls <= Int.INT_MAX /\
  frame_count (fst (deliver pulls c w)) = frame_count c + frames_delivered pulls.
Proof.
  intros c w pulls.
  assert (H1 : 0 <= frame_count c) by (simpl; lia).
  assert (H2 : frame_count c + frames_delivered pulls <= Int.INT_MAX)
    by (vm_compute; discriminate).
  split; [exact H1|]. split; [exact H2|].
  exact (proj1 (on_new_sample_counts_pulled_samples pulls c w H1 H2)).
Defined.

(** ** A negative interval *)

(** A negative interval, which the command line accepts, never faults for a
    counter that is not negative, but the rate it publishes is the negated
    quotient: never positive, so always shown in the warning colour, and 0
    exactly when fewer frames than the interval's magnitude arrived; any
    other window resets the downtime counter. *)
Theorem negative_interval_publishes_no_positive_fps
  interval stop_ok start_ok c w :
  interval < 0 ->
  0 <= frame_count c ->
  exists fps w',
    run_iteration interval stop_ok start_ok c w
      = Some (with_frame_count 0 c, w') /\
    fps = - (frame_count c / - interval) /\
    StdMap.find (name c) (fps_map w') = Some fps /\
    fps <= 0 /\
    (fps = 0 <-> frame_count c < - interval) /\
    (fps <> 0 -> downtime (name c) w' = 0) /\
    render_entry (name c, fps) = warning (item (name c) fps).
Proof.
  intros Hi Hf.
  assert (Hq : Z.quot (frame_count c) interval
               = - (frame_count c / - interval)).
  { replace interval with (- - interval) at 1 by lia.
    rewrite Z.quot_opp_r by lia. now rewrite Z.quot_div_nonneg by lia. }
  assert (Hdiv : Int.div (frame_count c) interval
                 = Some (- (frame_count c / - interval))).
  { unfold Int.div. destruct (Z.eqb_spec interval 0); [lia|].
    destruct (Z.eqb_spec (frame_count c) Int.INT_MIN) as [E|_].
    - unfold Int.INT_MIN in E. lia.
    - cbn [andb]. now rewrite Hq. }
  rewrite (run_iteration_some _ _ _ _ _ _ Hdiv).
  assert (Hnn : 0 <= frame_count c / - interval)
    by (apply Z.div_pos; lia).
  eexists _, _. split; [reflexivity|]. split; [reflexivity|].
  rewrite fps_map_stall_policy. cbn [set_fps fps_map].
  split; [apply find_set_same|]. split; [lia|]. split; [|split].
  - split.
    + intros H0. assert (Hz : frame_count c / - interval = 0) by lia.
      apply Z.div_small_iff in Hz; lia.
    + intros Hlt. rewrite Z.div_small; lia.
  - intros Hne.
    exact (proj1 (stall_policy_nonzero _ stop_ok start_ok
                    (with_frame_count 0 c) _ Hne)).
  - unfold render_entry. cbn [fst snd].
    destruct (Z.ltb_spec (- (frame_count c / - interval)) 5); [reflexivity|lia].
Qed.

(** Thirty frames, the interval -2. *)
Lemma negative_interval_publishes_no_positive_fps_witness :
  let c := mkCamera "cam0" "rtsp://a" true 30 true in
  let w := mkWorld [] [("cam0"%string, 3)] [] in
  -2 < 0 /\ 0 <= frame_count c /\
  exists fps w',
    run_iteration (-2) true true c w = Some (with_frame_count 0 c, w') /\
    fps = - (frame_count c / - -2) /\
    StdMap.find (name c) (fps_map w') = Some fps /\
    fps <= 0.
Proof.
  intros c w.
  assert (H1 : -2 < 0) by lia.
  assert (H2 : 0 <= frame_count c) by (simpl; lia).
  split; [exact H1|]. split; [exact H2|].
  destruct (negative_interval_publishes_no_positive_fps (-2) true true c w
              H1 H2) as (fps & w' & A & B & C & D & _).
  exists fps, w'. repeat split; assumption.
Defined.

(** ** Linking the pads *)

Lemma Part000_targets_agree enc :
  option_map fst (Part000.appsink_source enc) = Part000.pad_target enc.
Proof.
  unfold Part000.appsink_source, Part000.pad_target.
  destruct (String.eqb_spec enc "H265") as [->|?]; [reflexivity|].
  destruct (String.eqb_spec enc "H264") as [->|?]; [reflexivity|].
  destruct (String.eqb_spec enc "JPEG") as [->|?]; [reflexivity|].
  destruct (String.eqb_spec enc "VP8") as [->|?]; [reflexivity|].
  destruct (String.eqb_spec enc "VP9") as [->|?]; [reflexivity|].
  destruct (String.eqb_spec enc "H263") as [->|?]; reflexivity.
Qed.

Lemma Part000_pad_target_none enc :
  Part000.pad_target enc = None <->
  ~ In enc ["H265"; "H264"; "JPEG"; "VP8"; "VP9"; "H263"]%string.
Proof.
  unfold Part000.pad_target.
  destruct (String.eqb_spec enc "H265") as [->|?];
    [split; [discriminate|intros H; exfalso; apply H; simpl; tauto]|].
  destruct (String.eqb_spec enc "H264") as [->|?];
    [split; [discriminate|intros H; exfalso; apply H; simpl; tauto]|].
  destruct (String.eqb_spec enc "JPEG") as [->|?];
    [split; [discriminate|intros H; exfalso; apply H; simpl; tauto]|].
  destruct (String.eqb_spec enc "VP8") as [->|?];
    [split; [discriminate|intros H; exfalso; apply H; simpl; tauto]|].
  destruct (String.eqb_spec enc "VP9") as [->|?];
    [split; [discriminate|intros H; exfalso; apply H; simpl; tauto]|].
  destruct (String.eqb_spec enc "H263") as [->|?];
    [split; [discriminate|intros H; exfalso; apply H; simpl; tauto]|].
  split; [|reflexivity]. intros _ H. simpl in H.
  repeat (destruct H as [H|H]; [congruence|]). exact H.
Qed.

(** [on_pad_added] of the earlier program: an encoding name other than the
    six it knows, or none, links nothing; for a known one the new pad is
    linked to that codec's depayloader, and the appsink is linked only after
    that link succeeded and from the same depayloader, although the two
    [if] chains test the names in different orders; the maps are never
    touched. *)
Theorem part000_appsink_fed_by_linked_depayloader
  encoding_name pad_linked element_linked c w :
  let r := Part000.on_pad_added encoding_name pad_linked element_linked c w in
  fps_map (snd r) = fps_map w /\
  downtime_map (snd r) = downtime_map w /\
  (encoding_name = None -> fst r = []) /\
  (forall enc,
     encoding_name = Some enc ->
     ~ In enc ["H265"; "H264"; "JPEG"; "VP8"; "VP9"; "H263"]%string ->
     fst r = [] /\
     exists before,
       trace (snd r) =
       (before ++ [Cerr ("Unsupported encoding name: " ++ enc)%string])%list) /\
  (forall enc,
     encoding_name = Some enc ->
     In enc ["H265"; "H264"; "JPEG"; "VP8"; "VP9"; "H263"]%string ->
     exists depay,
       Part000.pad_target enc = Some depay /\
       fst r = if pad_linked
               then [mkLink None depay true;
                     mkLink (Some depay) appsink element_linked]
               else [mkLink None depay false]).
Proof.
  intros r. subst r. unfold Part000.on_pad_added.
  destruct encoding_name as [enc|].
  - pose proof (Part000_targets_agree enc) as Hag.
    pose proof (Part000_pad_target_none enc) as Hnone.
    destruct (Part000.pad_target enc) as [d|] eqn:Et.
    + destruct (Part000.appsink_source enc) as [[src label]|] eqn:Es;
        [|discriminate]. cbn in Hag. injection Hag as ->.
      destruct pad_linked, element_linked; cbn [fst snd emit fps_map downtime_map];
        (split; [reflexivity|]; split; [reflexivity|];
         split; [discriminate|]; split;
         [intros e [= <-] Hn; apply Hnone in Hn; discriminate
         |intros e [= <-] _; exists d; now split]).
    + cbn [fst snd emit fps_map downtime_map trace].
      split; [reflexivity|]. split; [reflexivity|].
      split; [discriminate|]. split.
      * intros e [= <-] _. split; [reflexivity|]. eexists. reflexivity.
      * intros e [= <-] Hin. exfalso. now apply (proj1 Hnone).
  - cbn [fst snd emit fps_map downtime_map].
    split; [reflexivity|]. split; [reflexivity|]. split; [reflexivity|].
    split; intros e [=].
Qed.

(** A VP9 stream whose depayloader cannot be linked to the appsink. *)
Lemma part000_appsink_fed_by_linked_depayloader_witness :
  let c := mkCamera "cam0" "rtsp://a" true 0 true in
  let w := mkWorld [] [] [] in
  let r := Part000.on_pad_added (Some "VP9"%string) true false c w in
  In "VP9"%string ["H265"; "H264"; "JPEG"; "VP8"; "VP9"; "H263"]%string /\
  exists depay,
    Part000.pad_target "VP9" = Some depay /\
    fst r = [mkLink None depay true; mkLink (Some depay) appsink false].
Proof.
  intros c w r.
  assert (H : In "VP9"%string ["H265"; "H264"; "JPEG"; "VP8"; "VP9"; "H263"]%string)
    by (simpl; tauto).
  split; [exact H|].
  destruct (part000_appsink_fed_by_linked_depayloader
              (Some "VP9"%string) true false c w) as (_ & _ & _ & _ & H5).
  exact (H5 "VP9"%string eq_refl H).
Defined.

(** The pad callbacks of [check_fps.cpp]: [on_pad_added] links the new pad
    to parsebin only when the pad has an encoding name, and
    [on_parsebin_pad_added] always links to the appsink; each writes to
    [std::cerr] exactly when a link it attempted failed (a missing encoding
    name goes to [std::cout]), and neither touches the maps. *)
Theorem pad_callbacks_report_failed_links encoding_name linked c w :
  let r1 := on_pad_added encoding_name linked c w in
  let r2 := on_parsebin_pad_added linked c w in
  (fps_map (snd r1) = fps_map w /\ downtime_map (snd r1) = downtime_map w /\
   fps_map (snd r2) = fps_map w /\ downtime_map (snd r2) = downtime_map w) /\
  fst r1 = match encoding_name with
           | Some _ => [mkLink None parsebin linked]
           | None => []
           end /\
  fst r2 = [mkLink None appsink linked] /\
  (exists l1,
     trace (snd r1) = (trace w ++ l1)%list /\
     ((exists line, In (Cerr line) l1) <->
      encoding_name <> None /\ linked = false)) /\
  (exists l2,
     trace (snd r2) = (trace w ++ l2)%list /\
     ((exists line, In (Cerr line) l2) <-> linked = false)).
Proof.
  intros r1 r2. subst r1 r2. unfold on_pad_added, on_parsebin_pad_added.
  split; [destruct encoding_name, linked; now repeat split|].
  split; [destruct encoding_name, linked; reflexivity|].
  split; [destruct linked; reflexivity|]. split.
  - destruct encoding_name as [enc|]; [destruct linked|];
      cbn [snd emit trace]; rewrite <- ?app_assoc;
      eexists; (split; [reflexivity|]); cbn [app]; split.
    + intros [line [H|[H|[]]]]; discriminate.
    + intros [_ H]. discriminate.
    + intros _. split; [discriminate|reflexivity].
    + intros _. eexists. right. right. left. reflexivity.
    + intros [line [H|[H|[]]]]; discriminate.
    + intros [H _]. now exfalso.
  - destruct linked; cbn [snd emit trace]; rewrite <- ?app_assoc;
      eexists; (split; [reflexivity|]); cbn [app]; split.
    + intros [line [H|[H|[]]]]; discriminate.
    + discriminate.
    + reflexivity.
    + intros _. eexists. right. left. reflexivity.
Qed.

(** ** A camera that keeps delivering *)

(** A camera whose every window delivers at least [interval] frames is
    never stopped or restarted by its loop, however long it runs: the loop
    changes no pipeline state, the downtime counter is 0 after every pass
    and the frame counter starts every window at 0. *)
Theorem healthy_camera_is_never_restarted interval ws c w :
  0 < interval ->
  frame_count c = 0 ->
  running c = true ->
  Forall (healthy_window interval) ws ->
  exists w',
    run interval ws c w = Some (Looping, c, w') /\
    set_states (trace w') = set_states (trace w) /\
    (ws <> [] -> downtime (name c) w' = 0 /\
                 exists fps, 0 < fps /\
                   StdMap.find (name c) (fps_map w') = Some fps).
Proof.
  intros Hi Hfc Hrun. revert w.
  induction ws as [|win rest IH]; intros w Hall.
  - exists w. cbn [run]. rewrite Hrun.
    split; [reflexivity|]. split; [reflexivity|]. intros H. now contradiction H.
  - inversion Hall as [|? ? [[Hlo Hhi] Hstop] Hall']; subst.
    cbn [run]. rewrite Hrun, Hstop.
    destruct (deliver (samples win) c w) as [c1 w1] eqn:Hd.
    assert (Hc1 : c1 = fst (deliver (samples win) c w)) by now rewrite Hd.
    assert (Hw1 : w1 = snd (deliver (samples win) c w)) by now rewrite Hd.
    assert (Hf1 : frame_count c1 = frames_delivered (samples win)).
    { rewrite Hc1, deliver_frame_count; lia. }
    assert (Hn1 : name c1 = name c) by (rewrite Hc1; apply deliver_name).
    assert (Hdiv : Int.div (frame_count c1) interval
                   = Some (frames_delivered (samples win) / interval)).
    { rewrite Hf1. apply Int_div_pos; lia. }
    assert (Hpos : 0 < frames_delivered (samples win) / interval)
      by (apply Z.div_str_pos; lia).
    rewrite (run_iteration_some _ _ _ _ _ _ Hdiv).
    assert (Hsame : with_frame_count 0 c1 = c).
    { destruct (deliver_camera (samples win) c w) as [Hid Hr].
      rewrite <- Hc1 in Hid, Hr. unfold identity in Hid.
      clear - Hid Hr Hfc. destruct c1, c. cbn in *.
      injection Hid as -> -> ->. subst. reflexivity. }
    rewrite Hsame, Hn1.
    set (fps := frames_delivered (samples win) / interval) in *.
    destruct (stall_policy_nonzero fps (stop_ok win) (start_ok win) c
                (set_fps (name c) fps w1)) as [Hd0 Ht0]; [lia|].
    set (w2 := stall_policy fps (stop_ok win) (start_ok win) c
                 (set_fps (name c) fps w1)) in *.
    assert (Ht2 : set_states (trace w2) = set_states (trace w)).
    { rewrite Ht0. cbn [set_fps trace]. rewrite Hw1. apply deliver_maps. }
    assert (Hf2 : StdMap.find (name c) (fps_map w2) = Some fps).
    { subst w2. rewrite fps_map_stall_policy. apply find_set_same. }
    destruct (IH w2 Hall') as (w' & Hr & Ht & Hlast).
    exists w'. split; [exact Hr|]. split; [congruence|]. intros _.
    destruct rest as [|win2 rest'].
    + cbn [run] in Hr. rewrite Hrun in Hr. injection Hr as <-.
      split; [exact Hd0|]. now exists fps.
    + apply Hlast. discriminate.
Qed.

(** Three windows of ten frames, sampled every 2 seconds. *)
Lemma healthy_camera_is_never_restarted_witness :
  let ten := mkWindow (List.repeat true 10) false true true in
  let c := mkCamera "cam0" "rtsp://a" true 0 true in
  let w := mkWorld [] [("cam0"%string, 3)] [] in
  0 < 2 /\ frame_count c = 0 /\ running c = true /\
  Forall (healthy_window 2) [ten; ten; ten] /\
  exists w',
    run 2 [ten; ten; ten] c w = Some (Looping, c, w') /\
    set_states (trace w') = set_states (trace w).
Proof.
  intros ten c w.
  assert (H1 : 0 < 2) by lia.
  assert (H2 : frame_count c = 0) by reflexivity.
  assert (H3 : running c = true) by reflexivity.
  assert (H4 : Forall (healthy_window 2) [ten; ten; ten]).
  { repeat constructor; vm_compute; discriminate. }
  split; [exact H1|]. split; [exact H2|]. split; [exact H3|].
  split; [exact H4|].
  destruct (healthy_camera_is_never_restarted 2 [ten; ten; ten] c w
              H1 H2 H3 H4) as (w' & Hr & Ht & _).
  exists w'. split; [exact Hr|exact Ht].
Defined.

(** ** Passes of different cameras *)

Lemma set_set {V} k (v v' : V) m :
  StdMap.set k v (StdMap.set k v' m) = StdMap.set k v m.
Proof.
  induction m as [|[k' x] rest IH]; cbn [StdMap.set].
  - now rewrite compare_refl.
  - destruct (String.compare k k') eqn:E; cbn [StdMap.set].
    + now rewrite compare_refl.
    + now rewrite compare_refl.
    + now rewrite E, IH.
Qed.

Lemma set_comm {V} k1 k2 (v1 v2 : V) m :
  k1 <> k2 ->
  StdMap.set k1 v1 (StdMap.set k2 v2 m) = StdMap.set k2 v2 (StdMap.set k1 v1 m).
Proof.
  intros Hne.
  assert (Hcases : (String.compare k1 k2 = Lt /\ String.compare k2 k1 = Gt) \/
                   (String.compare k1 k2 = Gt /\ String.compare k2 k1 = Lt)).
  { destruct (String.compare k1 k2) eqn:E.
    - apply String.compare_eq_iff in E. contradiction.
    - left. split; [reflexivity|]. now apply slt_asym.
    - right. split; [reflexivity|]. now apply compare_gt_lt. }
  induction m as [|[k' x] rest IH]; cbn [StdMap.set].
  - destruct Hcases as [[E1 E2]|[E1 E2]]; now rewrite E1, E2.
  - destruct (String.compare k1 k') eqn:C1, (String.compare k2 k') eqn:C2;
      cbn [StdMap.set]; rewrite ?C1, ?C2.
    + apply String.compare_eq_iff in C1, C2. congruence.
    + apply String.compare_eq_iff in C1. subst k'.
      rewrite ?(slt_asym _ _ C2), ?C2; cbn [StdMap.set];
        now rewrite ?compare_refl, ?C2.
    + apply String.compare_eq_iff in C1. subst k'.
      cbn [StdMap.set]; now rewrite ?compare_refl, ?C2.
    + apply String.compare_eq_iff in C2. subst k'.
      rewrite ?(slt_asym _ _ C1), ?C1; cbn [StdMap.set];
        now rewrite ?compare_refl, ?C1.
    + destruct Hcases as [[E1 E2]|[E1 E2]]; rewrite ?E1, ?E2;
        cbn [StdMap.set]; now rewrite ?C1, ?C2.
    + assert (E1 : String.compare k1 k2 = Lt).
      { eapply slt_trans; [exact C1|]. now apply compare_gt_lt. }
      rewrite ?(slt_asym _ _ E1), ?E1; cbn [StdMap.set];
        now rewrite ?C1, ?C2.
    + apply String.compare_eq_iff in C2. subst k'.
      cbn [StdMap.set]; now rewrite ?compare_refl, ?C1.
    + assert (E2 : String.compare k2 k1 = Lt).
      { eapply slt_trans; [exact C2|]. now apply compare_gt_lt. }
      rewrite ?(slt_asym _ _ E2), ?E2; cbn [StdMap.set];
        now rewrite ?C1, ?C2.
    + now rewrite IH.
Qed.

Lemma downtime_map_start ok c w : downtime_map (start ok c w) = downtime_map w.
Proof. unfold start. now destruct ok. Qed.

Lemma downtime_map_stop ok c w : downtime_map (stop ok c w) = downtime_map w.
Proof. unfold stop. now destruct ok. Qed.

(** The downtime map after a pass: one entry written. *)
Lemma downtime_map_stall_policy fps stop_ok start_ok c w :
  Int.in_range (downtime (name c) w + 1) ->
  downtime_map (stall_policy fps stop_ok start_ok c w) =
  StdMap.set (name c)
    (if fps =? 0
     then if downtime (name c) w + 1 >=? 5 then 0 else downtime (name c) w + 1
     else 0)
    (downtime_map w).
Proof.
  intros Hr. unfold stall_policy. destruct (fps =? 0); [|reflexivity].
  rewrite downtime_set_same, (Int_add_small _ _ Hr).
  destruct (downtime (name c) w + 1 >=? 5); [|reflexivity].
  cbn [set_downtime downtime_map].
  rewrite downtime_map_start, downtime_map_stop. cbn [emit downtime_map].
  apply set_set.
Qed.

Lemma put_camera_comm i j a b cs :
  i <> j ->
  put_camera i a (put_camera j b cs) = put_camera j b (put_camera i a cs).
Proof.
  revert i j. induction cs as [|x cs IH]; intros [|i] [|j] H;
    cbn [put_camera]; try reflexivity; try contradiction.
  f_equal. apply IH. congruence.
Qed.

Lemma nth_error_put_camera_other i j b cs :
  i <> j -> nth_error (put_camera j b cs) i = nth_error cs i.
Proof.
  revert i j. induction cs as [|x cs IH]; intros [|i] [|j] H;
    cbn [put_camera nth_error]; try reflexivity; try contradiction.
  apply IH. congruence.
Qed.

Lemma exec_run_live_system interval i stop_ok start_ok s c :
  nth_error (cameras s) i = Some c ->
  running c = true ->
  exec interval (OpRun i stop_ok start_ok) s =
  match Int.div (frame_count c) interval with
  | Some fps =>
      Some (mkSystem
              (stall_policy fps stop_ok start_ok (with_frame_count 0 c)
                 (set_fps (name c) fps (world s)))
              (put_camera i (with_frame_count 0 c) (cameras s)))
  | None => None
  end.
Proof.
  intros Hn Hrun. unfold exec. rewrite Hn, Hrun. unfold run_iteration.
  now destruct (Int.div (frame_count c) interval).
Qed.

(** The passes of two live cameras with different names commute on the
    shared state: run in either order from a state whose counters are in
    range, they fault or succeed together and leave the same registry, the
    same downtime map and the same cameras; only the order of the lines in
    the trace can differ. *)
Theorem passes_of_different_cameras_commute
  interval s i j ci cj ok1 ok2 ok3 ok4 s1 :
  counters_in_range (world s) ->
  nth_error (cameras s) i = Some ci ->
  nth_error (cameras s) j = Some cj ->
  running ci = true ->
  running cj = true ->
  name ci <> name cj ->
  exec_all interval [OpRun i ok1 ok2; OpRun j ok3 ok4] s = Some s1 ->
  exists s2,
    exec_all interval [OpRun j ok3 ok4; OpRun i ok1 ok2] s = Some s2 /\
    fps_map (world s2) = fps_map (world s1) /\
    downtime_map (world s2) = downtime_map (world s1) /\
    cameras s2 = cameras s1.
Proof.
  intros Hc Hi Hj Hri Hrj Hne E.
  assert (Hij : i <> j).
  { intros ->. rewrite Hi in Hj. injection Hj as ->. now apply Hne. }
  assert (Hrange : forall k w', downtime k w' = downtime k (world s) ->
                                Int.in_range (downtime k w' + 1)).
  { intros k w' ->. specialize (Hc k).
    unfold Int.in_range, Int.INT_MIN, Int.INT_MAX. lia. }
  cbn [exec_all] in *.
  rewrite (exec_run_live_system interval i ok1 ok2 s ci Hi Hri) in E.
  rewrite (exec_run_live_system interval j ok3 ok4 s cj Hj Hrj).
  destruct (Int.div (frame_count ci) interval) as [fi|] eqn:Di;
    [|discriminate].
  rewrite (exec_run_live_system interval j ok3 ok4 _ cj) in E;
    [|cbn [cameras]; rewrite nth_error_put_camera_other; [exact Hj|congruence]
     |exact Hrj].
  destruct (Int.div (frame_count cj) interval) as [fj|] eqn:Dj;
    [|discriminate].
  rewrite (exec_run_live_system interval i ok1 ok2 _ ci);
    [|cbn [cameras]; rewrite nth_error_put_camera_other; [exact Hi|exact Hij]
     |exact Hri].
  rewrite Di. injection E as <-. eexists. split; [reflexivity|].
  cbn [world cameras].
  set (ci' := with_frame_count 0 ci). set (cj' := with_frame_count 0 cj).
  assert (Hni : name ci' = name ci) by reflexivity.
  assert (Hnj : name cj' = name cj) by reflexivity.
  split; [|split].
  - rewrite !fps_map_stall_policy. cbn [set_fps fps_map].
    rewrite !fps_map_stall_policy. cbn [set_fps fps_map].
    apply set_comm. congruence.
  - rewrite !downtime_map_stall_policy.
    + cbn [set_fps downtime_map]. rewrite !downtime_set_fps.
      rewrite !downtime_map_stall_policy.
      * cbn [set_fps downtime_map]. rewrite !downtime_set_fps.
        rewrite !downtime_stall_policy_other by (rewrite ?Hni, ?Hnj; congruence).
        rewrite !downtime_set_fps. apply set_comm.
        rewrite Hni, Hnj. congruence.
      * apply Hrange. now rewrite downtime_set_fps.
      * apply Hrange. now rewrite downtime_set_fps.
    + apply Hrange. rewrite downtime_set_fps.
      rewrite downtime_stall_policy_other by (rewrite ?Hni, ?Hnj; congruence).
      now rewrite downtime_set_fps.
    + apply Hrange. rewrite downtime_set_fps.
      rewrite downtime_stall_policy_other by (rewrite ?Hni, ?Hnj; congruence).
      now rewrite downtime_set_fps.
  - apply put_camera_comm. congruence.
Qed.

(** Two cameras, the second with frames, the first near a reconnect. *)
Lemma passes_of_different_cameras_commute_witness :
  let c0 := mkCamera "cam0" "rtsp://a" true 0 true in
  let c1 := mkCamera "cam1" "rtsp://b" true 7 true in
  let s := mkSystem
             (mkWorld [] [("cam0"%string, 4); ("cam1"%string, 2)] []) [c0; c1] in
  let s1 := match exec_all 1 [OpRun 0 true false; OpRun 1 true true] s with
            | Some s1 => s1
            | None => s
            end in
  counters_in_range (world s) /\
  name c0 <> name c1 /\
  exec_all 1 [OpRun 0 true false; OpRun 1 true true] s = Some s1 /\
  exists s2,
    exec_all 1 [OpRun 1 true true; OpRun 0 true false] s = Some s2 /\
    fps_map (world s2) = fps_map (world s1) /\
    downtime_map (world s2) = downtime_map (world s1) /\
    cameras s2 = cameras s1.
Proof.
  intros c0 c1 s s1.
  assert (Hc : counters_in_range (world s)).
  { intros k. unfold downtime, StdMap.get. cbn.
    destruct (String.compare k "cam0"); [lia|lia|].
    destruct (String.compare k "cam1"); lia. }
  assert (Hne : name c0 <> name c1) by discriminate.
  assert (E : exec_all 1 [OpRun 0 true false; OpRun 1 true true] s = Some s1)
    by reflexivity.
  split; [exact Hc|]. split; [exact Hne|]. split; [exact E|].
  exact (passes_of_different_cameras_commute 1 s 0 1 c0 c1 true false true true
           s1 Hc eq_refl eq_refl eq_refl eq_refl Hne E).
Defined.

(** ** The interval 0 and the other intervals *)

Lemma set_nonempty {V} k (v : V) m : StdMap.set k v m <> [].
Proof.
  destruct m as [|[k' v'] rest]; cbn [StdMap.set]; [discriminate|].
  destruct (String.compare k k'); discriminate.
Qed.

Lemma read_lines_nonempty lines index m :
  m <> [] \/ named_lines lines <> [] -> read_lines lines index m <> [].
Proof.
  revert index m. induction lines as [|line rest IH]; intros index m H.
  - cbn [read_lines]. destruct H as [H|H]; [exact H|]. now contradiction H.
  - rewrite named_lines_cons in H. cbn [read_lines].
    destruct (String.eqb line ""); [now apply IH|].
    apply IH. left. apply set_nonempty.
Qed.

Lemma run_iteration_none interval stop_ok start_ok c w :
  run_iteration interval stop_ok start_ok c w = None <->
  interval = 0 \/ (frame_count c = Int.INT_MIN /\ interval = -1).
Proof.
  unfold run_iteration.
  pose proof (Int_div_defined (frame_count c) interval) as Hd.
  destruct (Int.div (frame_count c) interval) as [fps|].
  - split; [discriminate|]. intros H. exfalso.
    assert (Hs : Some fps <> None) by discriminate.
    apply Hd in Hs. destruct Hs as [H0 H1]. destruct H as [H|H]; tauto.
  - split; [|reflexivity]. intros _.
    destruct (Z.eq_dec interval 0) as [E0|E0]; [now left|]. right.
    destruct (Z.eq_dec (frame_count c) Int.INT_MIN) as [E1|E1];
      destruct (Z.eq_dec interval (-1)) as [E2|E2]; try tauto;
      exfalso; apply (proj2 Hd); tauto.
Qed.

(** C10, as the code has it: the argument [0] is accepted, and when the
    list names a camera the run is launched with interval 0 and at least one
    camera, and the first pass of every launched camera's loop faults in its
    division.  A pass has no result exactly when the interval is 0, or when
    it is -1 and the counter is [INT_MIN]: for the counters that are not
    negative the computation is total under every interval other than 0,
    the negative ones included. *)
Theorem fps_division_faults_exactly_at_zero_interval :
  (forall gst prog lines w,
     named_lines lines <> [] ->
     exists cams w',
       main_startup gst [prog; "0"%string] (Some lines) w
         = (Launched 0 cams, w') /\
       cams <> [] /\
       forall c win ws wx, In c cams -> run 0 (win :: ws) c wx = None) /\
  (forall interval stop_ok start_ok c w,
     run_iteration interval stop_ok start_ok c w = None <->
     interval = 0 \/ (frame_count c = Int.INT_MIN /\ interval = -1)) /\
  (forall interval stop_ok start_ok c w,
     interval <> 0 ->
     0 <= frame_count c ->
     exists c' w', run_iteration interval stop_ok start_ok c w = Some (c', w')).
Proof.
  split; [|split].
  - intros gst prog lines w Hne.
    rewrite (main_startup_ok gst [prog; "0"%string] (Some lines) w 0);
      [|cbn; lia|reflexivity].
    cbn [read_camera_uris fst snd].
    set (m := read_lines lines 0 StdMap.empty).
    assert (Hm : m <> []) by (apply read_lines_nonempty; now right).
    destruct (launch_spec gst m [] w) as (H1 & _).
    eexists _, _. split; [reflexivity|]. rewrite H1. cbn [app]. split.
    + destruct m; [now contradiction Hm|discriminate].
    + intros c win ws wx Hin. apply in_map_iff in Hin.
      destruct Hin as (e & <- & _). cbn [run launched_camera running].
      destruct (deliver (samples win) _ wx) as [c1 w1].
      unfold run_iteration, Int.div. reflexivity.
  - apply run_iteration_none.
  - intros interval stop_ok start_ok c w Hi Hf.
    destruct (run_iteration interval stop_ok start_ok c w) as [[c' w']|] eqn:E;
      [now exists c', w'|].
    apply run_iteration_none in E. unfold Int.INT_MIN in E. lia.
Qed.

(** One camera in the list; and a pass with the interval -2. *)
Lemma fps_division_faults_exactly_at_zero_interval_witness :
  let gst := mkGst (fun _ => true) (fun _ => true) (fun _ => true) in
  let lines := ["rtsp://a"%string] in
  let w := mkWorld [] [] [] in
  let c := mkCamera "cam0" "rtsp://a" true 30 true in
  named_lines lines <> [] /\
  (exists cams w',
     main_startup gst ["./check_fps"; "0"]%string (Some lines) w
       = (Launched 0 cams, w') /\
     cams <> [] /\
     forall c win ws wx, In c cams -> run 0 (win :: ws) c wx = None) /\
  -2 <> 0 /\ 0 <= frame_count c /\
  exists c' w', run_iteration (-2) true true c w = Some (c', w').
Proof.
  intros gst lines w c.
  assert (H1 : named_lines lines <> []) by discriminate.
  assert (H2 : -2 <> 0) by lia.
  assert (H3 : 0 <= frame_count c) by (simpl; lia).
  destruct fps_division_faults_exactly_at_zero_interval as (A & _ & C).
  split; [exact H1|]. split; [exact (A gst "./check_fps"%string lines w H1)|].
  split; [exact H2|]. split; [exact H3|].
  exact (C (-2) true true c w H2 H3).
Defined.

(** C10 as stated fails in its second half: the argument [-2] is accepted
    and with the interval -2 no pass faults, whatever the counter, so a
    positive interval is not needed for the computation to be total. *)
Lemma negative_interval_never_faults :
  stoi "-2" = Ok (-2) /\
  (forall stop_ok start_ok c w,
     run_iteration (-2) stop_ok start_ok c w <> None) /\
  ~ (forall interval,
       (forall stop_ok start_ok c w,
          run_iteration interval stop_ok start_ok c w <> None) ->
       0 < interval).
Proof.
  assert (H : forall stop_ok start_ok c w,
            run_iteration (-2) stop_ok start_ok c w <> None).
  { intros stop_ok start_ok c w E. apply run_iteration_none in E. lia. }
  split; [reflexivity|]. split; [exact H|].
  intros Hall. specialize (Hall (-2) H). lia.
Qed.

(** ** Whose entries an operation writes *)

Lemma run_iteration_other interval stop_ok start_ok c w c' w' k :
  run_iteration interval stop_ok start_ok c w = Some (c', w') ->
  name c' = name c /\
  (k <> name c ->
   StdMap.find k (fps_map w') = StdMap.find k (fps_map w) /\
   downtime k w' = downtime k w).
Proof.
  unfold run_iteration.
  destruct (Int.div (frame_count c) interval) as [fps|]; [|discriminate].
  intros [= <- <-]. split; [reflexivity|]. intros Hne. split.
  - rewrite fps_map_stall_policy. cbn [set_fps fps_map].
    now apply find_set_other.
  - now rewrite downtime_stall_policy_other.
Qed.

Lemma run_other interval ws c w st c' w' k :
  run interval ws c w = Some (st, c', w') ->
  k <> name c ->
  StdMap.find k (fps_map w') = StdMap.find k (fps_map w) /\
  downtime k w' = downtime k w.
Proof.
  revert c w. induction ws as [|win rest IH]; intros c w E Hne.
  - cbn [run] in E. destruct (running c); injection E as _ _ <-; now split.
  - cbn [run] in E. destruct (running c); [|injection E as _ _ <-; now split].
    destruct (deliver (samples win) c w) as [c1 w1] eqn:Hd.
    assert (Hn1 : name c1 = name c).
    { change c1 with (fst (c1, w1)). rewrite <- Hd. apply deliver_name. }
    assert (Hw1 : w1 = snd (deliver (samples win) c w)) by now rewrite Hd.
    set (c2 := if stop_request win then set_running false c1 else c1) in *.
    assert (Hn2 : name c2 = name c)
      by (subst c2; now destruct (stop_request win)).
    destruct (run_iteration interval (stop_ok win) (start_ok win) c2 w1)
      as [[c3 w3]|] eqn:Ei; [|discriminate].
    destruct (run_iteration_other _ _ _ _ _ _ _ k Ei) as [Hn3 Ho].
    destruct Ho as [Hf3 Hd3]; [congruence|].
    destruct (IH c3 w3 E) as [Hf Hdt]; [congruence|].
    split.
    + rewrite Hf, Hf3, Hw1. now destruct (deliver_maps (samples win) c w) as (-> & _).
    + rewrite Hdt, Hd3, Hw1. apply downtime_deliver.
Qed.

(** The loop of a camera, over any windows and also in the pass that
    follows a stop request, changes the registry entry and the downtime
    counter of no other name than the camera's own; the constructor leaves
    the registry alone and changes the counter of no other name; [start],
    [stop], the frame callbacks and a pass of the reporter change neither
    map. *)
Theorem entry_changes_only_by_owner k :
  (forall interval ws c w st c' w',
     run interval ws c w = Some (st, c', w') ->
     k <> name c ->
     StdMap.find k (fps_map w') = StdMap.find k (fps_map w) /\
     downtime k w' = downtime k w) /\
  (forall nm u made w,
     fps_map (snd (Camera_new nm u made w)) = fps_map w /\
     (k <> nm -> downtime k (snd (Camera_new nm u made w)) = downtime k w)) /\
  (forall ok c w,
     fps_map (start ok c w) = fps_map w /\
     downtime_map (start ok c w) = downtime_map w /\
     fps_map (stop ok c w) = fps_map w /\
     downtime_map (stop ok c w) = downtime_map w) /\
  (forall pulls c w,
     fps_map (snd (deliver pulls c w)) = fps_map w /\
     downtime_map (snd (deliver pulls c w)) = downtime_map w) /\
  (forall timestamp w,
     fps_map (print_fps_iteration timestamp w) = fps_map w /\
     downtime_map (print_fps_iteration timestamp w) = downtime_map w).
Proof.
  split; [|split; [|split; [|split]]].
  - intros interval ws c w st c' w'. apply run_other.
  - intros nm u made w. split; [apply Camera_new_world|].
    apply downtime_Camera_new_other.
  - intros ok c w.
    now rewrite fps_map_start, fps_map_stop, downtime_map_start,
      downtime_map_stop.
  - intros pulls c w. destruct (deliver_maps pulls c w) as (H1 & H2 & _).
    now split.
  - intros timestamp w. now rewrite print_fps_iteration_line.
Qed.

(** The loop of cam1 over a window with a stop request: cam0's entries
    stay. *)
Lemma entry_changes_only_by_owner_witness :
  let c := mkCamera "cam1" "rtsp://b" true 0 true in
  let w := mkWorld [("cam0"%string, 12)] [("cam0"%string, 3)] [] in
  let ws := [mkWindow [true; true] true true true] in
  exists st c' w',
    run 1 ws c w = Some (st, c', w') /\
    "cam0"%string <> name c /\
    StdMap.find "cam0" (fps_map w') = StdMap.find "cam0" (fps_map w) /\
    downtime "cam0" w' = downtime "cam0" w.
Proof.
  intros c w ws.
  destruct (run 1 ws c w) as [[[st c'] w']|] eqn:E; [|discriminate].
  assert (Hne : "cam0"%string <> name c) by discriminate.
  exists st, c', w'. split; [reflexivity|]. split; [exact Hne|].
  exact (proj1 (entry_changes_only_by_owner "cam0"%string)
           1 ws c w st c' w' E Hne).
Defined.

(** ** The pass of the window with the stop request *)

(** When [running] is cleared during a window, the loop still delivers that
    window's frames and carries out its pass: with a positive interval it
    publishes the rate of the frames counted, resets the frame counter, and
    only then exits, with [running] cleared; whatever follows that window is
    not looked at. *)
Theorem run_completes_pass_of_stop_window interval win ws c w :
  0 < interval ->
  running c = true ->
  stop_request win = true ->
  0 <= frame_count c ->
  frame_count c + frames_delivered (samples win) <= Int.INT_MAX ->
  exists c' w',
    run interval (win :: ws) c w = Some (Exited, c', w') /\
    run_iteration interval (stop_ok win) (start_ok win)
      (set_running false (fst (deliver (samples win) c w)))
      (snd (deliver (samples win) c w)) = Some (c', w') /\
    running c' = false /\
    frame_count c' = 0 /\
    StdMap.find (name c) (fps_map w') =
      Some ((frame_count c + frames_delivered (samples win)) / interval) /\
    run interval (win :: ws) c w = run interval [win] c w.
Proof.
  intros Hi Hrun Hs Hf Hmax.
  pose proof (frames_delivered_nonneg (samples win)) as Hnn.
  assert (Hlast : run interval (win :: ws) c w = run interval [win] c w)
    by exact (run_stop_window_last interval [] win ws c w Hs).
  set (c1 := fst (deliver (samples win) c w)).
  set (w1 := snd (deliver (samples win) c w)).
  assert (Hf1 : frame_count c1 = frame_count c + frames_delivered (samples win))
    by (subst c1; now apply deliver_frame_count).
  assert (Hn1 : name c1 = name c) by (subst c1; apply deliver_name).
  assert (Hdiv : Int.div (frame_count (set_running false c1)) interval
                 = Some ((frame_count c + frames_delivered (samples win))
                         / interval)).
  { cbn [set_running frame_count]. rewrite Hf1. apply Int_div_pos; lia. }
  pose proof (run_iteration_some interval (stop_ok win) (start_ok win)
                (set_running false c1) w1 _ Hdiv) as Hit.
  assert (Hres : run interval (win :: ws) c w =
                 match run_iteration interval (stop_ok win) (start_ok win)
                         (set_running false c1) w1 with
                 | Some (c', w') => run interval ws c' w'
                 | None => None
                 end).
  { cbn [run]. rewrite Hrun. subst c1 w1.
    destruct (deliver (samples win) c w) as [cx wx]. cbn [fst snd].
    now rewrite Hs. }
  rewrite Hit in Hres.
  rewrite (run_stopped interval ws (with_frame_count 0 (set_running false c1)))
    in Hres by reflexivity.
  eexists _, _. split; [exact Hres|]. split; [exact Hit|].
  split; [reflexivity|]. split; [reflexivity|]. split; [|exact Hlast].
  rewrite fps_map_stall_policy. cbn [set_fps fps_map set_running name].
  rewrite Hn1. apply find_set_same.
Qed.

(** A stop request in the first of three windows, two frames in it. *)
Lemma run_completes_pass_of_stop_window_witness :
  let c := mkCamera "cam0" "rtsp://a" true 0 true in
  let w := mkWorld [] [] [] in
  let last := mkWindow [true; true] true true true in
  let more := mkWindow [true] false true true in
  0 < 1 /\ running c = true /\ stop_request last = true /\
  0 <= frame_count c /\
  frame_count c + frames_delivered (samples last) <= Int.INT_MAX /\
  exists c' w',
    run 1 [last; more; more] c w = Some (Exited, c', w') /\
    running c' = false /\
    frame_count c' = 0 /\
    StdMap.find (name c) (fps_map w') =
      Some ((frame_count c + frames_delivered (samples last)) / 1).
Proof.
  intros c w last more.
  assert (H1 : 0 < 1) by lia.
  assert (H2 : running c = true) by reflexivity.
  assert (H3 : stop_request last = true) by reflexivity.
  assert (H4 : 0 <= frame_count c) by (simpl; lia).
  assert (H5 : frame_count c + frames_delivered (samples last) <= Int.INT_MAX)
    by (vm_compute; discriminate).
  split; [exact H1|]. split; [exact H2|]. split; [exact H3|].
  split; [exact H4|]. split; [exact H5|].
  destruct (run_completes_pass_of_stop_window 1 last [more; more] c w
              H1 H2 H3 H4 H5) as (c' & w' & A & _ & B & C & D & _).
  exists c', w'. repeat split; assumption.
Defined.

(** ** The cameras before the cleanup *)

(** Over the operations the program performs before the cleanup of [main]
    (construction, start, stop, [set_running], the frame callback, a pass of
    a loop, a pass of the reporter), the list of cameras only grows at its
    end, and only by construction: after any sequence of them the cameras
    are those there were, at their positions and with the same name, URI
    and element status, followed by exactly the cameras the sequence
    constructs, in the order of their construction. *)
Theorem cameras_keep_identity interval ops s s' :
  exec_all interval ops s = Some s' ->
  List.map identity (cameras s') =
  (List.map identity (cameras s) ++ constructed ops)%list.
Proof.
  revert s. induction ops as [|o ops IH]; intros s E.
  - injection E as <-. cbn. now rewrite app_nil_r.
  - cbn [exec_all] in E.
    destruct (exec interval o s) as [s1|] eqn:E1; [|discriminate].
    rewrite (IH s1 E). unfold constructed. cbn [flat_map].
    destruct (exec_identity interval o s s1 E1)
      as [H1|(nm & u & made & -> & H1)]; rewrite H1.
    + assert (Ho : match o with
                   | OpNew nm u made => [(nm, u, made)]
                   | _ => []
                   end = []).
      { destruct o; try reflexivity. exfalso.
        unfold exec in E1.
        destruct (Camera_new nm u made (world s)) as [c w].
        injection E1 as <-. cbn [cameras] in H1.
        rewrite map_app in H1. apply (f_equal (@List.length _)) in H1.
        rewrite length_app in H1. cbn in H1. lia. }
      rewrite Ho. reflexivity.
    + now rewrite <- app_assoc.
Qed.

(** One camera through callbacks, a pass, a stop and a second camera. *)
Lemma cameras_keep_identity_witness :
  let s := mkSystem (mkWorld [] [] [])
             [mkCamera "cam0" "rtsp://a" true 0 true] in
  let ops := [OpNewSample 0 true; OpRun 0 true true; OpSetRunning 0 false;
              OpStop 0 true; OpNew "cam1" "rtsp://b" false] in
  let s' := match exec_all 1 ops s with Some s' => s' | None => s end in
  exec_all 1 ops s = Some s' /\
  List.map identity (cameras s') =
  (List.map identity (cameras s) ++ constructed ops)%list.
Proof.
  intros s ops s'.
  assert (E : exec_all 1 ops s = Some s') by reflexivity.
  split; [exact E|]. exact (cameras_keep_identity 1 ops s s' E).
Defined.
